(** * ISS position exporter: [setup-position-tracking.ts]

    A shallow embedding of [positionLoader] / [loadPosition] from
    [iss-exporter/src/setup-position-tracking.ts], together with the part of
    the ECMAScript runtime the function relies on (truthiness, property
    reads, [Number(...)]), the collaborators it calls ([fetch],
    [Response.json], prom-client's [Gauge.set], [logError]) and the
    scheduler that drives it.

    Numbers are IEEE 754 binary64 values (Rocq's primitive [float]); strings
    are held as their UTF-8 bytes; the gauges live in a store indexed by
    handle, so that two names for one gauge alias as they do in JavaScript. *)

From Stdlib Require Import ZArith String Ascii List Bool Lia.
From Stdlib Require Import PrimFloat FloatOps SpecFloat.
From stdpp Require Import gmap strings.

Set Warnings "-inexact-float,-register-all".
Open Scope string_scope.

(** ** ECMAScript values *)

Module Js.

(** The values [JSON.parse] can produce, plus [undefined], which is what a
    read of a missing property gives. An object keeps its properties in
    insertion order; a key occurs once. *)
Inductive JsValue : Type :=
| JUndefined
| JNull
| JBool (b : bool)
| JNumber (n : float)
| JString (s : string)
| JArray (elements : list JsValue)
| JObject (properties : list (string * JsValue)).

(** An [Error] object as far as the source reads it: [(error as Error).message].
    The source asserts this type for whatever the try block throws. *)
Record Error : Type := mkError { name : string; message : string }.

(** A completion: the normal result of an evaluation, or the value thrown. *)
Inductive Completion (A : Type) : Type :=
| Normal (a : A)
| Throw (e : Error).
Arguments Normal {A} a.
Arguments Throw {A} e.

(** *** ToBoolean (ECMA-262 7.1.2) *)

Definition ToBoolean (v : JsValue) : bool :=
  match v with
  | JUndefined | JNull => false
  | JBool b => b
  | JNumber n => negb (PrimFloat.eqb n 0 || PrimFloat.is_nan n)
  | JString s => negb (String.eqb s "")
  | JArray _ | JObject _ => true
  end.

(** *** Property reads *)

Fixpoint lookup_property (k : string) (ps : list (string * JsValue)) : JsValue :=
  match ps with
  | [] => JUndefined
  | (k', v) :: ps' => if String.eqb k k' then v else lookup_property k ps'
  end.

(** [o.k] for a value [o] that is neither [undefined] nor [null], and a name
    [k] that no prototype defines and that is no index or [length] (so for
    [latitude], [longitude] and [altitude]): the own property of a plain
    object, [undefined] on everything else. *)
Definition get_property (o : JsValue) (k : string) : JsValue :=
  match o with
  | JObject ps => lookup_property k ps
  | _ => JUndefined
  end.

(** [o.k] in general: reading a property of [undefined] or [null] throws a
    [TypeError]. *)
Definition GetV (o : JsValue) (k : string) : Completion JsValue :=
  match o with
  | JUndefined | JNull =>
      Throw (mkError "TypeError"
               ("Cannot read properties of undefined or null (reading '" ++ k ++ "')"))
  | _ => Normal (get_property o k)
  end.

(** *** StringToNumber (ECMA-262 7.1.4.1.1)

    The string is decoded to code points, white space is trimmed at both
    ends, and what is left is read by the [StringNumericLiteral] grammar:
    nothing ([+0]), a binary, octal or hexadecimal integer literal, or an
    optionally signed [Infinity] or decimal literal. Anything else is [NaN].
    The mathematical value is rounded to the nearest binary64 value, ties to
    even. *)

Definition continuation (b : N) : bool := ((128 <=? b) && (b <? 192))%N.

Fixpoint utf8_decode (bs : list N) : list N :=
  match bs with
  | [] => []
  | b0 :: r0 =>
      if (b0 <? 128)%N then b0 :: utf8_decode r0
      else match r0 with
      | b1 :: r1 =>
          if ((192 <=? b0) && (b0 <? 224) && continuation b1)%N
          then ((b0 - 192) * 64 + (b1 - 128))%N :: utf8_decode r1
          else match r1 with
          | b2 :: r2 =>
              if ((224 <=? b0) && (b0 <? 240) && continuation b1 && continuation b2)%N
              then ((b0 - 224) * 4096 + (b1 - 128) * 64 + (b2 - 128))%N :: utf8_decode r2
              else match r2 with
              | b3 :: r3 =>
                  if ((240 <=? b0) && (b0 <? 248) && continuation b1
                      && continuation b2 && continuation b3)%N
                  then ((b0 - 240) * 262144 + (b1 - 128) * 4096
                        + (b2 - 128) * 64 + (b3 - 128))%N :: utf8_decode r3
                  else 65533%N :: utf8_decode r0
              | [] => 65533%N :: utf8_decode r0
              end
          | [] => 65533%N :: utf8_decode r0
          end
      | [] => [65533%N]
      end
  end.

Definition code_points (s : string) : list N :=
  utf8_decode (map N_of_ascii (list_ascii_of_string s)).

(** [StrWhiteSpaceChar]: [WhiteSpace] (TAB, VT, FF, ZWNBSP and the space
    separators) and [LineTerminator] (LF, CR, LS, PS). *)
Definition StrWhiteSpaceChar (c : N) : bool :=
  ((9 <=? c) && (c <=? 13) || (c =? 32) || (c =? 160) || (c =? 5760)
   || (8192 <=? c) && (c <=? 8202) || (c =? 8232) || (c =? 8233)
   || (c =? 8239) || (c =? 8287) || (c =? 12288) || (c =? 65279))%N.

Fixpoint drop_while {A} (p : A -> bool) (l : list A) : list A :=
  match l with
  | [] => []
  | x :: l' => if p x then drop_while p l' else l
  end.

Fixpoint span {A} (p : A -> bool) (l : list A) : list A * list A :=
  match l with
  | [] => ([], [])
  | x :: l' => if p x then let '(a, b) := span p l' in (x :: a, b) else ([], l)
  end.

Definition trim (l : list N) : list N :=
  rev (drop_while StrWhiteSpaceChar (rev (drop_while StrWhiteSpaceChar l))).

(** The value of a digit in radix up to 16, if the code point is one. *)
Definition digit_value (c : N) : option Z :=
  if ((48 <=? c) && (c <=? 57))%N then Some (Z.of_N c - 48)%Z
  else if ((97 <=? c) && (c <=? 102))%N then Some (Z.of_N c - 87)%Z
  else if ((65 <=? c) && (c <=? 70))%N then Some (Z.of_N c - 55)%Z
  else None.

Definition is_digit (radix : Z) (c : N) : bool :=
  match digit_value c with
  | Some d => (d <? radix)%Z
  | None => false
  end.

Definition digits_value (radix : Z) (ds : list N) : Z :=
  fold_left (fun acc c => (acc * radix + default 0 (digit_value c))%Z) ds 0%Z.

(** [NonDecimalIntegerLiteral]: [0b], [0o] or [0x] (either case) and at least
    one digit of that radix; no sign. *)
Definition parse_NonDecimalIntegerLiteral (cs : list N) : option Z :=
  match cs with
  | 48%N :: p :: ds =>
      let radix :=
        if ((p =? 98) || (p =? 66))%N then Some 2%Z
        else if ((p =? 111) || (p =? 79))%N then Some 8%Z
        else if ((p =? 120) || (p =? 88))%N then Some 16%Z
        else None in
      match radix, ds with
      | Some r, _ :: _ => if forallb (is_digit r) ds then Some (digits_value r ds) else None
      | _, _ => None
      end
  | _ => None
  end.

(** A parsed [StrDecimalLiteral]: a signed infinity, or sign, digits [m] and
    decimal exponent [e], of value [m * 10^e]. *)
Inductive StrDecimal : Type :=
| SInfinity (negative : bool)
| SDecimal (negative : bool) (m : Z) (e : Z).

Definition parse_sign (cs : list N) : bool * list N :=
  match cs with
  | 43%N :: r => (false, r)
  | 45%N :: r => (true, r)
  | _ => (false, cs)
  end.

(** [ExponentPart_opt] at the end of the literal: nothing, or [e]/[E], an
    optional sign and at least one digit. *)
Definition parse_ExponentPart (cs : list N) : option Z :=
  match cs with
  | [] => Some 0%Z
  | c :: r =>
      if ((c =? 101) || (c =? 69))%N then
        let '(neg, r') := parse_sign r in
        match r' with
        | _ :: _ =>
            if forallb (is_digit 10) r'
            then Some (if neg then - digits_value 10 r' else digits_value 10 r')%Z
            else None
        | [] => None
        end
      else None
  end.

Definition parse_StrUnsignedDecimalLiteral (neg : bool) (cs : list N) : option StrDecimal :=
  if decide (cs = code_points "Infinity") then Some (SInfinity neg)
  else
    let '(ip, r1) := span (is_digit 10) cs in
    let '(fp, r2) :=
      match r1 with
      | 46%N :: r => span (is_digit 10) r
      | _ => ([], r1)
      end in
    match (ip ++ fp)%list with
    | [] => None
    | ds =>
        match parse_ExponentPart r2 with
        | Some e => Some (SDecimal neg (digits_value 10 ds) (e - Z.of_nat (length fp)))
        | None => None
        end
    end.

Definition parse_StrDecimalLiteral (cs : list N) : option StrDecimal :=
  let '(neg, r) := parse_sign cs in
  parse_StrUnsignedDecimalLiteral neg r.

(** The binary64 value nearest to [m * 10^e] for [0 <= m], with the sign
    given; a zero keeps the sign. *)
Definition round_MV (neg : bool) (m e : Z) : float :=
  match m with
  | Zpos p =>
      SF2Prim
        (if (0 <=? e)%Z then binary_round prec emax neg (p * Z.to_pos (10 ^ e)) 0
         else
           let '(q, e2, l) := SFdiv_core_binary prec emax (Zpos p) 0 (10 ^ (- e)) 0 in
           binary_round_aux prec emax neg q e2 l)
  | _ => if neg then neg_zero else zero
  end.

Definition StringToNumber (s : string) : float :=
  match trim (code_points s) with
  | [] => zero
  | cs =>
      match parse_NonDecimalIntegerLiteral cs with
      | Some m => round_MV false m 0
      | None =>
          match parse_StrDecimalLiteral cs with
          | Some (SInfinity neg) => if neg then neg_infinity else infinity
          | Some (SDecimal neg m e) => round_MV neg m e
          | None => nan
          end
      end
  end.

(** *** ToString, ToPrimitive and ToNumber (ECMA-262 7.1.17, 7.1.1, 7.1.4) *)

Section Conversions.

(** [Number::toString] (ECMA-262 6.1.6.1.20): the shortest decimal that
    reads back as the number. It only matters for numbers inside arrays
    and is left to the runtime. *)
Variable NumberToString : float -> string.

(** Whether an object has an own property of that name. *)
Definition has_own_property (k : string) (properties : list (string * JsValue)) : bool :=
  existsb (fun p => String.eqb k (fst p)) properties.

(** What [OrdinaryToPrimitive] throws when neither [toString] nor [valueOf]
    gives a primitive. *)
Definition not_primitive : Error :=
  mkError "TypeError" "Cannot convert object to primitive value".

(** [ToString]. An array or a plain object goes through [ToPrimitive] with
    hint string. For an array [toString] is [Array.prototype.toString],
    which joins the elements with commas ([Array.prototype.join]:
    [undefined] and [null] elements give the empty string, every other
    element its own [ToString], which may throw). For a plain object
    [toString] is [Object.prototype.toString], giving ["[object Object]"],
    unless the object has an own [toString] property: a parsed value is
    never callable, so that method is skipped, [valueOf] gives no primitive
    either (the inherited one gives the object back, an own one is not
    callable), and a [TypeError] is thrown. *)
Fixpoint ToString (v : JsValue) : Completion string :=
  match v with
  | JUndefined => Normal "undefined"
  | JNull => Normal "null"
  | JBool b => Normal (if b then "true" else "false")
  | JNumber n => Normal (NumberToString n)
  | JString s => Normal s
  | JArray elements =>
      match
        (fix join (es : list JsValue) : Completion (list string) :=
           match es with
           | [] => Normal []
           | e :: es' =>
               match
                 match e with
                 | JUndefined | JNull => Normal ""
                 | _ => ToString e
                 end
               with
               | Throw error => Throw error
               | Normal s =>
                   match join es' with
                   | Throw error => Throw error
                   | Normal ss => Normal (s :: ss)
                   end
               end
           end) elements
      with
      | Throw error => Throw error
      | Normal ss => Normal (String.concat "," ss)
      end
  | JObject properties =>
      if has_own_property "toString" properties then Throw not_primitive
      else Normal "[object Object]"
  end.

(** [ToNumber]. Arrays and plain objects go through [ToPrimitive] with hint
    number: [valueOf] comes first and gives no primitive, so [toString]
    decides as it does for [ToString], and may throw as it does there. *)
Definition ToNumber (v : JsValue) : Completion float :=
  match v with
  | JUndefined => Normal nan
  | JNull => Normal zero
  | JBool b => Normal (if b then one else zero)
  | JNumber n => Normal n
  | JString s => Normal (StringToNumber s)
  | JArray _ | JObject _ =>
      match ToString v with
      | Throw error => Throw error
      | Normal s => Normal (StringToNumber s)
      end
  end.

(** [Number(value)] called as a function. *)
Definition Number (value : JsValue) : Completion float := ToNumber value.

End Conversions.

End Js.

(** ** Collaborators: fetch, the gauges and the log *)

Module Export Platform.
Import Js.

(** An [AbortSignal] as the scheduler hands it to one invocation. *)
Record AbortSignal : Type := { aborted : bool; reason : Error }.

(** A [Response]: status line, and what awaiting [response.json()] gives
    (the parsed body, or the rejection of a body that does not parse or
    whose transfer is aborted). *)
Record Response : Type := {
  status : Z;
  statusText : string;
  json : Completion JsValue
}.

(** [response.ok]: the status is in the range 200-299. *)
Definition ok (response : Response) : bool :=
  ((200 <=? status response) && (status response <=? 299))%Z.

(** What the outside world answers during one invocation: the settlement of
    the promise [fetch(url, {signal})]. *)
Record Env : Type := { fetch : string -> option AbortSignal -> Completion Response }.

(** [fetch] honours the signal: with a signal that is aborted at the latest
    while the request is pending, the promise rejects with the signal's
    reason. *)
Definition honours_abort (env : Env) : Prop :=
  forall url signal,
    aborted signal = true -> fetch env url (Some signal) = Throw (reason signal).

(** A gauge is referred to by its handle (an object reference). *)
Definition Gauge : Type := nat.

Inductive LogValue : Type :=
| LString (s : string)
| LResponse (response : Response)
| LData (data : JsValue).

(** The calls made to the collaborators, in order. *)
Inductive Call : Type :=
| LogError (msg : string) (context : list (string * LogValue))
| GaugeSet (g : Gauge) (value : float).

Record World : Type := {
  gauges : gmap Gauge float;
  calls : list Call
}.

(** *** The effect monad: environment, world, and exceptions *)

Definition M (A : Type) : Type := Env -> World -> Completion A * World.

Definition ret {A} (a : A) : M A := fun _ w => (Normal a, w).

Definition bind {A B} (m : M A) (k : A -> M B) : M B :=
  fun env w =>
    match m env w with
    | (Normal a, w') => k a env w'
    | (Throw e, w') => (Throw e, w')
    end.

Definition liftC {A} (c : Completion A) : M A := fun _ w => (c, w).

(** [try { body } catch (error) { handler }] *)
Definition try_catch {A} (body : M A) (handler : Error -> M A) : M A :=
  fun env w =>
    match body env w with
    | (Throw error, w') => handler error env w'
    | r => r
    end.

Declare Scope js_scope.
Delimit Scope js_scope with js.
Notation "x <- c ;; k" := (bind c (fun x => k))
  (at level 100, c at next level, right associativity) : js_scope.
Notation "c ;; k" := (bind c (fun _ => k))
  (at level 100, right associativity) : js_scope.

(** [await fetch(url, {signal})] *)
Definition await_fetch (url : string) (signal : option AbortSignal) : M Response :=
  fun env w => (fetch env url signal, w).

(** [await response.json()] *)
Definition await_json (response : Response) : M JsValue := liftC (json response).

(** prom-client's [Gauge.set(value)] on a gauge without labels: the value
    is stored. (Its only check, [typeof value !== 'number'], cannot fail on
    a [float].) *)
Definition Gauge_set (g : Gauge) (value : float) : M unit :=
  fun _ w =>
    (Normal tt, {| gauges := <[g := value]> (gauges w);
                   calls := calls w ++ [GaugeSet g value] |}).

(** Modelled from the spec: [logError] of [./logging.js], which is not among
    the sources. The logging sink accepts a message string and a structured
    context mapping for error-level events. *)
Definition logError (msg : string) (context : list (string * LogValue)) : M unit :=
  fun _ w =>
    (Normal tt, {| gauges := gauges w; calls := calls w ++ [LogError msg context] |}).

End Platform.

(** ** The position poller: [positionLoader] and [loadPosition] *)

Module Poller.
Import Js.
Local Open Scope js_scope.

Section PositionLoader.

Variable NumberToString : float -> string.

(** The closure's captured variables. *)
Variable url : string.
Variables latitudeMetric longitudeMetric altitudeMetric : Gauge.

(** [!data || !data.altitude || !data.latitude || !data.longitude], with
    the short circuit of [||]: a property is read only when everything
    before it was truthy. *)
Definition unexpected_payload (data : JsValue) : M bool :=
  if negb (ToBoolean data) then ret true else
  altitude <- liftC (GetV data "altitude") ;;
  if negb (ToBoolean altitude) then ret true else
  latitude <- liftC (GetV data "latitude") ;;
  if negb (ToBoolean latitude) then ret true else
  longitude <- liftC (GetV data "longitude") ;;
  ret (negb (ToBoolean longitude)).

(** The body of [loadPosition] after the try statement. Nothing here is
    inside a try: what [Number] throws on a field leaves the function, after
    the gauges of the fields before it were set. *)
Definition publish (response : Response) (data : JsValue) : M unit :=
  if negb (ok response) then
    logError ("Failed to fetch ISS position data: " ++ statusText response)
             [("response", LResponse response)]
    (* return *)
  else
  invalid <- unexpected_payload data ;;
  if invalid then
    logError "Failed to parse ISS position data: Unexpected payload"
             [("data", LData data)]
    (* return *)
  else
  let source := if ToBoolean data then data else JObject [] in
  latitude <- liftC (GetV source "latitude") ;;
  longitude <- liftC (GetV source "longitude") ;;
  altitude <- liftC (GetV source "altitude") ;;
  latitude_number <- liftC (Number NumberToString latitude) ;;
  Gauge_set latitudeMetric latitude_number ;;
  longitude_number <- liftC (Number NumberToString longitude) ;;
  Gauge_set longitudeMetric longitude_number ;;
  altitude_number <- liftC (Number NumberToString altitude) ;;
  Gauge_set altitudeMetric altitude_number.

(** [async function loadPosition(signal?: AbortSignal)]. The try block
    yields the response and the parsed body; the catch block logs and
    returns, which is the [None] below. A [Throw] completion of the whole
    is a rejection of the promise the async function returns. *)
Definition loadPosition (signal : option AbortSignal) : M unit :=
  fetched <-
    try_catch
      (response <- await_fetch url signal ;;
       data <- await_json response ;;
       ret (Some (response, data)))
      (fun error =>
         logError "Failed to fetch ISS position data"
                  [("message", LString (message error))] ;;
         ret None (* return *)) ;;
  match fetched with
  | None => ret tt
  | Some (response, data) => publish response data
  end.

End PositionLoader.

(** [positionLoader(url, latitudeMetric, longitudeMetric, altitudeMetric)]
    returns the task. *)
Definition positionLoader := loadPosition.

(** *** Vocabulary of the specification *)

(** The world after one more error-level log call. *)
Definition logged (w : World) (msg : string) (context : list (string * LogValue)) : World :=
  {| gauges := gauges w; calls := calls w ++ [LogError msg context] |}.

(** The world after the three gauges were set, in the order of the source. *)
Definition published (w : World) (latitudeMetric longitudeMetric altitudeMetric : Gauge)
    (latitude longitude altitude : float) : World :=
  {| gauges := <[altitudeMetric := altitude]>
                 (<[longitudeMetric := longitude]>
                    (<[latitudeMetric := latitude]> (gauges w)));
     calls := calls w ++ [GaugeSet latitudeMetric latitude;
                          GaugeSet longitudeMetric longitude;
                          GaugeSet altitudeMetric altitude] |}.

(** Step 4 of the specification: the payload is valid when [latitude],
    [longitude] and [altitude] are all present and individually truthy. *)
Definition payload_valid (data : JsValue) : bool :=
  ToBoolean data
  && ToBoolean (get_property data "latitude")
  && ToBoolean (get_property data "longitude")
  && ToBoolean (get_property data "altitude").

(** The four kinds of failure of the specification's error taxonomy. *)
Inductive FailedPoll (url : string) (signal : option AbortSignal) (env : Env) : Prop :=
| transport_error (e : Error) :
    fetch env url signal = Throw e -> FailedPoll url signal env
| parse_error (response : Response) (e : Error) :
    fetch env url signal = Normal response ->
    json response = Throw e -> FailedPoll url signal env
| status_error (response : Response) (data : JsValue) :
    fetch env url signal = Normal response ->
    json response = Normal data ->
    ok response = false -> FailedPoll url signal env
| validation_error (response : Response) (data : JsValue) :
    fetch env url signal = Normal response ->
    json response = Normal data ->
    payload_valid data = false -> FailedPoll url signal env.

(** The gauge store [m] after the three values were written to it. *)
Definition showing (latitudeMetric longitudeMetric altitudeMetric : Gauge)
    (latitude longitude altitude : float) (m : gmap Gauge float) : gmap Gauge float :=
  <[altitudeMetric := altitude]>
    (<[longitudeMetric := longitude]> (<[latitudeMetric := latitude]> m)).

(** The world after a list of calls to [Gauge.set], made in order. *)
Definition after_sets (w : World) (sets : list (Gauge * float)) : World :=
  {| gauges := foldl (fun m s => <[fst s := snd s]> m) (gauges w) sets;
     calls := calls w ++ map (fun s => GaugeSet (fst s) (snd s)) sets |}.

(** Lines 110-112 of the source, as what they come to: each field is coerced
    and its gauge set, in the order latitude, longitude, altitude, until a
    coercion throws. The completion, and the calls to [Gauge.set] made. *)
Definition coercions (NumberToString : float -> string)
    (latitudeMetric longitudeMetric altitudeMetric : Gauge)
    (latitude longitude altitude : JsValue) : Completion unit * list (Gauge * float) :=
  match Number NumberToString latitude with
  | Throw e => (Throw e, [])
  | Normal a =>
      match Number NumberToString longitude with
      | Throw e => (Throw e, [(latitudeMetric, a)])
      | Normal b =>
          match Number NumberToString altitude with
          | Throw e => (Throw e, [(latitudeMetric, a); (longitudeMetric, b)])
          | Normal c =>
              (Normal tt,
               [(latitudeMetric, a); (longitudeMetric, b); (altitudeMetric, c)])
          end
      end
  end.

(** The calls to [Gauge.set] among a list of calls. *)
Definition gauge_sets (cs : list Call) : list (Gauge * float) :=
  omap (fun c => match c with GaugeSet g v => Some (g, v) | LogError _ _ => None end) cs.

(** The error-level log calls among a list of calls. *)
Definition log_errors (cs : list Call) : list (string * list (string * LogValue)) :=
  omap (fun c => match c with LogError m k => Some (m, k) | GaugeSet _ _ => None end) cs.

(** A run of polls, one after the other, each with its own signal and its
    own answers from the outside world. *)
Fixpoint polls (NumberToString : float -> string) (url : string)
    (latitudeMetric longitudeMetric altitudeMetric : Gauge)
    (ticks : list (option AbortSignal * Env)) (w : World) : World :=
  match ticks with
  | [] => w
  | (signal, env) :: ticks' =>
      polls NumberToString url latitudeMetric longitudeMetric altitudeMetric ticks'
        (snd (loadPosition NumberToString url latitudeMetric longitudeMetric
                altitudeMetric signal env w))
  end.

(** The reading of a poll that passes every check of the specification
    (fetched, parsed, success status, valid payload). *)
Definition reading (url : string) (tick : option AbortSignal * Env) : option JsValue :=
  match fetch (snd tick) url (fst tick) with
  | Normal response =>
      match json response with
      | Normal data => if ok response && payload_valid data then Some data else None
      | Throw _ => None
      end
  | Throw _ => None
  end.

(** The most recent successfully validated reading of a run of polls. *)
Fixpoint last_reading (url : string) (ticks : list (option AbortSignal * Env)) : option JsValue :=
  match ticks with
  | [] => None
  | tick :: ticks' =>
      match last_reading url ticks' with
      | Some data => Some data
      | None => reading url tick
      end
  end.

End Poller.

(** ** The scheduler *)

Module Scheduler.
Import Js.

Section Schedule.

(** [intervalMs] *)
Variable interval : Z.
(** When the first invocation is due: at once, or after one interval. *)
Variable first_due : Z.

(** Modelled from the spec: what the scheduler of [./utilities.js] does, with
    the time it does it at. Invocations are numbered from 0. *)
Inductive Event : Type :=
| Started (k : nat) (t : Z)
| Settled (k : nat) (t : Z) (result : Completion unit)
| OnError (k : nat) (e : Error)
| Armed (due : Z)
| Cancelled (t : Z).

(** Modelled from the spec: the state of one schedule. [timers] holds the due
    times of the armed timers, [in_flight] the invocations that have started
    and not settled, [started] how many invocations have started, [history]
    the events so far, latest first. *)
Record State : Type := {
  clock : Z;
  timers : list Z;
  in_flight : list nat;
  started : nat;
  stopped : bool;
  history : list Event
}.

(** Modelled from the spec: [schedule] arms the timer of the first
    invocation and returns. *)
Definition initial : State :=
  {| clock := 0; timers := [first_due]; in_flight := []; started := 0;
     stopped := false; history := [Armed first_due] |}.

(** Modelled from the spec: [schedule(task, intervalMs, onError)] of
    [./utilities.js], which is not among the sources. An armed timer that
    is due starts the next invocation of the task, which gets a fresh
    cancellation signal, its number [k]. When an invocation settles, an
    error it raised goes to [onError], and only then is the interval timer
    for the next invocation armed, whether the task failed or not. The
    cancellation handle stops the schedule: it disarms the timer and
    aborts the signals in flight; the invocations in flight still settle,
    and none is started after. *)
Inductive step : State -> State -> Prop :=
| step_fire s pre due post t :
    timers s = (pre ++ due :: post)%list ->
    (clock s <= t)%Z -> (due <= t)%Z ->
    step s {| clock := t; timers := (pre ++ post)%list;
              in_flight := started s :: in_flight s;
              started := S (started s); stopped := stopped s;
              history := Started (started s) t :: history s |}
| step_settle s k t result :
    k ∈ in_flight s ->
    (clock s <= t)%Z ->
    step s {| clock := t;
              timers := if stopped s then timers s
                        else (timers s ++ [t + interval])%list%Z;
              in_flight := filter (fun j => j ≠ k) (in_flight s);
              started := started s; stopped := stopped s;
              history := (if stopped s then [] else [Armed (t + interval)%Z])
                         ++ match result with
                            | Throw e => [OnError k e]
                            | Normal _ => []
                            end
                         ++ Settled k t result :: history s |}
| step_cancel s t :
    (clock s <= t)%Z ->
    step s {| clock := t; timers := []; in_flight := in_flight s;
              started := started s; stopped := true;
              history := Cancelled t :: history s |}.

Definition reachable (s : State) : Prop := rtc step initial s.

(** In a history (latest event first), every start of an invocation after
    the first has, before it, the settlement of the invocation before, at
    least one interval earlier. *)
Fixpoint spaced (h : list Event) : Prop :=
  match h with
  | [] => True
  | Started (S k) t :: earlier =>
      (exists t' result, Settled k t' result ∈ earlier /\ (t' + interval <= t)%Z)
      /\ spaced earlier
  | _ :: earlier => spaced earlier
  end.

(** What every reachable state satisfies: a timer is armed or an invocation
    is in flight, never both and never two; the invocation in flight is the
    latest started; an armed timer is due one interval after the latest
    invocation settled. *)
Record invariant (s : State) : Prop := {
  inv_one : (length (timers s) + length (in_flight s) <= 1)%nat;
  inv_latest : forall k, k ∈ in_flight s -> started s = S k;
  inv_due : forall due, due ∈ timers s ->
    started s = 0%nat \/
    exists k t result,
      started s = S k /\ Settled k t result ∈ history s /\ due = (t + interval)%Z;
  inv_spaced : spaced (history s)
}.

End Schedule.

(** A run with a one-second interval whose first poll takes two and a half
    seconds: the second poll starts a second after the first has settled. *)
Definition slow_poll : State :=
  {| clock := 3500; timers := []; in_flight := [1%nat]; started := 2;
     stopped := false;
     history := [Started 1 3500; Armed 3500; Settled 0 2500 (Normal tt);
                 Started 0 0; Armed 0] |}.

End Scheduler.

(** ** Sample polls *)

Module Samples.
Import Js.

(** A stand-in for [Number::toString]; no sample holds a number inside an
    array, so it is never called. *)
Definition no_digits (n : float) : string := "".

Definition api : string := "https://api.wheretheiss.at/v1/satellites/25544".

Definition empty_world : World := {| gauges := ∅; calls := [] |}.

(** The world answers every [fetch] with the same settlement. *)
Definition answering (settlement : Completion Response) : Env :=
  {| fetch := fun _ _ => settlement |}.

Definition position (latitude longitude altitude : JsValue) : JsValue :=
  JObject [("name", JString "iss"); ("id", JNumber 25544);
           ("latitude", latitude); ("longitude", longitude);
           ("altitude", altitude); ("units", JString "kilometers")].

Definition london : JsValue :=
  position (JNumber 51.5) (JNumber (-0.1)) (JNumber 408.2).

Definition on_equator : JsValue :=
  position (JNumber 0) (JNumber 12.3) (JNumber 400).

Definition mistyped : JsValue :=
  position (JString "north") (JBool true) (JArray [JString "4e2"]).

Definition success (data : JsValue) : Response :=
  {| status := 200; statusText := "OK"; json := Normal data |}.

Definition server_error (body : Completion JsValue) : Response :=
  {| status := 500; statusText := "Internal Server Error"; json := body |}.

Definition syntax_error : Error :=
  mkError "SyntaxError" "Unexpected token < in JSON at position 0".

Definition abort_error : Error :=
  mkError "AbortError" "This operation was aborted".

End Samples.

(** ** Runs of polls: what succeeded and what failed *)

Module Runs.
Import Js Poller.






End Runs.

(** ** [setupPositionTracking] *)

Module Setup.
Import Js Poller.

(** The fields of [Config] that [setupPositionTracking] reads. *)
Record Config : Type := {
  metricsPrefix : string;
  positionApiUrl : string;
  positionUpdateFrequency : Z
}.

(** A prom-client [Registry], by reference. *)
Definition Registry : Type := nat.

(** The configuration object handed to [new Gauge(...)]. *)
Record GaugeConfiguration : Type := {
  name : string;
  help : string;
  registers : list Registry
}.

(** [Error.prototype.toString], which a template literal applies to an
    [Error]. *)
Definition Error_toString (error : Error) : string :=
  if String.eqb (Js.name error) "" then message error
  else if String.eqb (message error) "" then Js.name error
  else Js.name error ++ ": " ++ message error.

(** The callback handed to [schedule]:
    [error => logError(`Could not fetch ISS position data: ${error}`, {error})],
    as the message and the context of its one call to [logError]. *)
Definition onError (error : Error) : string * list (string * Error) :=
  ("Could not fetch ISS position data: " ++ Error_toString error, [("error", error)]).

(** One call to [schedule(task, intervalMs, onError)]. *)
Record Schedule : Type := {
  task : option AbortSignal -> M unit;
  intervalMs : Z;
  on_error : Error -> string * list (string * Error)
}.

(** What setting up changes: the gauges constructed so far, in order of
    construction (the handle of a gauge is its position, so every [new]
    gives an object different from all earlier ones), and the calls made to
    [schedule]. *)
Record Process : Type := {
  metrics : list GaugeConfiguration;
  schedules : list Schedule
}.

Definition SetupM (A : Type) : Type := Process -> Completion A * Process.

Definition setup_bind {A B} (m : SetupM A) (k : A -> SetupM B) : SetupM B :=
  fun p =>
    match m p with
    | (Normal a, p') => k a p'
    | (Throw e, p') => (Throw e, p')
    end.

Declare Scope setup_scope.
Delimit Scope setup_scope with setup.
Notation "x <- c ;; k" := (setup_bind c (fun x => k))
  (at level 100, c at next level, right associativity) : setup_scope.

Section SetupPositionTracking.

Variable NumberToString : float -> string.

(** The checks of prom-client's [Gauge] constructor (a help text, a valid
    name, no other metric of that name in a register), which are not part of
    this repository: the error the constructor throws, if any, given the
    metrics constructed so far. *)
Variable refuses : list GaugeConfiguration -> GaugeConfiguration -> option Error.

(** [new Gauge(configuration)]: throws what the constructor's checks throw,
    and otherwise gives a new gauge, registered. *)
Definition new_Gauge (configuration : GaugeConfiguration) : SetupM Gauge :=
  fun p =>
    match refuses (metrics p) configuration with
    | Some e => (Throw e, p)
    | None =>
        (Normal (length (metrics p)),
         {| metrics := metrics p ++ [configuration]; schedules := schedules p |})
    end.

(** Modelled from the spec: [schedule] of [./utilities.js], which is not
    among the sources; here only the call is recorded, and the handle it
    returns is dropped, as the source drops it. *)
Definition schedule (task : option AbortSignal -> M unit) (intervalMs : Z)
    (on_error : Error -> string * list (string * Error)) : SetupM unit :=
  fun p =>
    (Normal tt,
     {| metrics := metrics p;
        schedules := schedules p ++ [{| task := task; intervalMs := intervalMs;
                                        on_error := on_error |}] |}).

Local Open Scope setup_scope.

(** [export function setupPositionTracking(config: Config, registry: Registry)] *)
Definition setupPositionTracking (config : Config) (registry : Registry) : SetupM unit :=
  positionLatitude <-
    new_Gauge {| name := metricsPrefix config ++ "position_latitude";
                 help := "ISS current latitude";
                 registers := [registry] |} ;;
  positionLongitude <-
    new_Gauge {| name := metricsPrefix config ++ "position_longitude";
                 help := "ISS current longitude";
                 registers := [registry] |} ;;
  positionAltitude <-
    new_Gauge {| name := metricsPrefix config ++ "altitude";
                 help := "ISS current altitude";
                 registers := [registry] |} ;;
  let loadPosition :=
    positionLoader NumberToString (positionApiUrl config)
      positionLatitude positionLongitude positionAltitude in
  schedule loadPosition (positionUpdateFrequency config) onError.

End SetupPositionTracking.

(** The configurations of the three gauges, in the order in which
    [setupPositionTracking] constructs them. *)
Definition gauge_configurations (config : Config) (registry : Registry) :
    list GaugeConfiguration :=
  [{| name := metricsPrefix config ++ "position_latitude";
      help := "ISS current latitude"; registers := [registry] |};
   {| name := metricsPrefix config ++ "position_longitude";
      help := "ISS current longitude"; registers := [registry] |};
   {| name := metricsPrefix config ++ "altitude";
      help := "ISS current altitude"; registers := [registry] |}].

End Setup.

(** ** More sample data *)

Module MoreSamples.
Import Js Setup.

(** A constructor check in the manner of prom-client's registry: a name
    that a metric in one of the same registers already bears is refused. *)
Definition refuses_duplicates (constructed : list GaugeConfiguration)
    (configuration : GaugeConfiguration) : option Error :=
  if existsb (fun m => String.eqb (name m) (name configuration)
                       && existsb (fun r => existsb (Nat.eqb r) (registers m))
                                  (registers configuration))
             constructed
  then Some (mkError "Error" ("A metric with the name " ++ name configuration
                              ++ " has already been registered."))
  else None.

Definition iss_config : Config :=
  {| metricsPrefix := "iss_";
     positionApiUrl := Samples.api;
     positionUpdateFrequency := 5000 |}.

Definition fresh_process : Process := {| metrics := []; schedules := [] |}.

(** A process in which another module has registered [iss_position_longitude]
    in registry 0. *)
Definition crowded_process : Process :=
  {| metrics := [{| name := "iss_position_longitude"; help := "taken";
                    registers := [0%nat] |}];
     schedules := [] |}.

(** A payload with no [altitude]. *)
Definition no_altitude : JsValue :=
  JObject [("latitude", JNumber 51.5); ("longitude", JNumber (-0.1))].

(** A payload whose [altitude] is [null]. *)
Definition null_altitude : JsValue :=
  Samples.position (JNumber 51.5) (JNumber (-0.1)) JNull.

(** The three fields alone, in another order. *)
Definition london_bare : JsValue :=
  JObject [("altitude", JNumber 408.2); ("latitude", JNumber 51.5);
           ("longitude", JNumber (-0.1))].

(** A parsed object with an own [toString] property, as [JSON.parse] makes
    of the text [{"toString": 1}]: truthy, and [Number] throws on it. *)
Definition stringless : JsValue := JObject [("toString", JNumber 1)].

Definition unnumbered_latitude : JsValue :=
  Samples.position stringless (JNumber (-0.1)) (JNumber 408.2).

Definition unnumbered_longitude : JsValue :=
  Samples.position (JNumber 51.5) stringless (JNumber 408.2).

Definition unnumbered_altitude : JsValue :=
  Samples.position (JNumber 51.5) (JNumber (-0.1)) (JArray [stringless]).

End MoreSamples.

(** * Properties of the poller *)

Module PollerFacts.
Import Js Poller.

Section Facts.

Variable NumberToString : float -> string.
Variable url : string.
Variables latitudeMetric longitudeMetric altitudeMetric : Gauge.

Abbreviation loadPosition :=
  (loadPosition NumberToString url latitudeMetric longitudeMetric altitudeMetric).
Abbreviation publish :=
  (publish NumberToString latitudeMetric longitudeMetric altitudeMetric).
Abbreviation Number := (Number NumberToString).
Abbreviation showing := (showing latitudeMetric longitudeMetric altitudeMetric).
Abbreviation coercions :=
  (coercions NumberToString latitudeMetric longitudeMetric altitudeMetric).

(** A truthy value is neither [undefined] nor [null], so its properties
    can be read. *)
Lemma GetV_truthy (o : JsValue) (k : string) :
  ToBoolean o = true -> GetV o k = Normal (get_property o k).
Proof. destruct o; simpl; intros H; try reflexivity; discriminate H. Qed.

(** The check of the source computes the validity of the specification,
    and the short circuit keeps it from throwing. *)
Lemma unexpected_payload_spec (data : JsValue) (env : Env) (w : World) :
  unexpected_payload data env w = (Normal (negb (payload_valid data)), w).
Proof.
  unfold unexpected_payload, payload_valid.
  destruct (ToBoolean data) eqn:Hd; simpl; [|reflexivity].
  unfold bind, liftC, ret.
  rewrite !GetV_truthy by assumption.
  destruct (ToBoolean (get_property data "altitude")),
           (ToBoolean (get_property data "latitude")),
           (ToBoolean (get_property data "longitude")); reflexivity.
Qed.

Lemma publish_not_ok (response : Response) (data : JsValue) env w :
  ok response = false ->
  publish response data env w
  = (Normal tt,
     logged w ("Failed to fetch ISS position data: " ++ statusText response)
              [("response", LResponse response)]).
Proof. intros H. unfold Poller.publish. rewrite H. reflexivity. Qed.

Lemma publish_invalid (response : Response) (data : JsValue) env w :
  ok response = true ->
  payload_valid data = false ->
  publish response data env w
  = (Normal tt,
     logged w "Failed to parse ISS position data: Unexpected payload"
              [("data", LData data)]).
Proof.
  intros Hok Hv. unfold Poller.publish. rewrite Hok. cbn [negb]. unfold bind.
  rewrite unexpected_payload_spec, Hv. reflexivity.
Qed.

Lemma payload_valid_truthy (data : JsValue) :
  payload_valid data = true -> ToBoolean data = true.
Proof. unfold payload_valid. destruct (ToBoolean data); [reflexivity|discriminate]. Qed.

(** After the checks, what is left is the coercions and the calls to [set]. *)
Lemma publish_valid (response : Response) (data : JsValue) env w :
  ok response = true ->
  payload_valid data = true ->
  publish response data env w
  = (fst (coercions (get_property data "latitude") (get_property data "longitude")
            (get_property data "altitude")),
     after_sets w
       (snd (coercions (get_property data "latitude") (get_property data "longitude")
               (get_property data "altitude")))).
Proof.
  intros Hok Hv. pose proof (payload_valid_truthy _ Hv) as Hd.
  unfold Poller.publish. rewrite Hok. cbn [negb]. unfold bind.
  rewrite unexpected_payload_spec, Hv. cbn [negb]. rewrite Hd.
  unfold liftC. rewrite !GetV_truthy by assumption.
  unfold Poller.coercions, Gauge_set, after_sets.
  destruct (Js.Number NumberToString (get_property data "latitude")) as [a|e];
    [|cbn; rewrite app_nil_r; destruct w; reflexivity].
  destruct (Js.Number NumberToString (get_property data "longitude")) as [b|e];
    [|reflexivity].
  destruct (Js.Number NumberToString (get_property data "altitude")) as [c|e];
    cbn [fst snd gauges calls foldl map]; rewrite <- ?app_assoc; reflexivity.
Qed.

Lemma loadPosition_rejected (signal : option AbortSignal) env w (e : Error) :
  fetch env url signal = Throw e ->
  loadPosition signal env w
  = (Normal tt,
     logged w "Failed to fetch ISS position data" [("message", LString (message e))]).
Proof.
  intros H. unfold Poller.loadPosition, bind, try_catch, await_fetch. rewrite H.
  reflexivity.
Qed.

Lemma loadPosition_unparsed (signal : option AbortSignal) env w response (e : Error) :
  fetch env url signal = Normal response ->
  json response = Throw e ->
  loadPosition signal env w
  = (Normal tt,
     logged w "Failed to fetch ISS position data" [("message", LString (message e))]).
Proof.
  intros H Hj.
  unfold Poller.loadPosition, bind, try_catch, await_fetch, await_json, liftC.
  rewrite H, Hj. reflexivity.
Qed.

Lemma loadPosition_parsed (signal : option AbortSignal) env w response data :
  fetch env url signal = Normal response ->
  json response = Normal data ->
  loadPosition signal env w = publish response data env w.
Proof.
  intros H Hj.
  unfold Poller.loadPosition, bind, try_catch, await_fetch, await_json, liftC, ret.
  rewrite H, Hj. reflexivity.
Qed.

Lemma gauge_sets_logged (w : World) msg context :
  gauge_sets (calls (logged w msg context)) = gauge_sets (calls w).
Proof.
  unfold logged, gauge_sets. cbn [calls]. rewrite omap_app. cbn.
  apply app_nil_r.
Qed.

Lemma log_errors_published (w : World) g1 g2 g3 v1 v2 v3 :
  log_errors (calls (published w g1 g2 g3 v1 v2 v3)) = log_errors (calls w).
Proof.
  unfold published, log_errors. cbn [calls]. rewrite omap_app. cbn.
  apply app_nil_r.
Qed.

(** A truthy field exists only in an object, and an object is truthy. *)
Lemma truthy_field_truthy_data (data : JsValue) (k : string) :
  ToBoolean (get_property data k) = true -> ToBoolean data = true.
Proof. destruct data; simpl; intros H; try discriminate H; reflexivity. Qed.

Lemma truthy_fields_valid (data : JsValue) :
  ToBoolean (get_property data "latitude") = true ->
  ToBoolean (get_property data "longitude") = true ->
  ToBoolean (get_property data "altitude") = true ->
  payload_valid data = true.
Proof.
  intros Hla Hlo Hal. unfold payload_valid.
  rewrite (truthy_field_truthy_data _ _ Hla), Hla, Hlo, Hal. reflexivity.
Qed.

(** Every poll is a failure of one of the four kinds, or passes all checks. *)
Lemma poll_cases (signal : option AbortSignal) (env : Env) :
  FailedPoll url signal env \/
  exists response data,
    fetch env url signal = Normal response /\ json response = Normal data /\
    ok response = true /\ payload_valid data = true.
Proof.
  destruct (fetch env url signal) as [response|e] eqn:Hf.
  - destruct (json response) as [data|e] eqn:Hj.
    + destruct (ok response) eqn:Hok.
      * destruct (payload_valid data) eqn:Hv.
        -- right. exists response, data. auto.
        -- left. eapply validation_error; eassumption.
      * left. eapply status_error; eassumption.
    + left. eapply parse_error; eassumption.
  - left. eapply transport_error; eassumption.
Qed.

(** A failed poll logs one error and does nothing else. *)
Lemma failed_poll_logs (signal : option AbortSignal) env w :
  FailedPoll url signal env ->
  exists msg context, loadPosition signal env w = (Normal tt, logged w msg context).
Proof.
  intros [e Hf | response e Hf Hj | response data Hf Hj Hok | response data Hf Hj Hv].
  - eexists _, _. apply loadPosition_rejected. exact Hf.
  - eexists _, _. eapply loadPosition_unparsed; eassumption.
  - eexists _, _. rewrite (loadPosition_parsed _ _ _ _ _ Hf Hj).
    apply publish_not_ok. exact Hok.
  - rewrite (loadPosition_parsed _ _ _ _ _ Hf Hj).
    destruct (ok response) eqn:Hok.
    + eexists _, _. apply publish_invalid; assumption.
    + eexists _, _. apply publish_not_ok. exact Hok.
Qed.

Lemma published_after_sets (w : World) g1 g2 g3 v1 v2 v3 :
  after_sets w [(g1, v1); (g2, v2); (g3, v3)] = published w g1 g2 g3 v1 v2 v3.
Proof. reflexivity. Qed.


Lemma log_errors_after_sets (w : World) (sets : list (Gauge * float)) :
  log_errors (calls (after_sets w sets)) = log_errors (calls w).
Proof.
  unfold after_sets, log_errors. cbn [calls]. rewrite omap_app.
  rewrite <- (app_nil_r (omap _ (calls w))) at 2. f_equal.
  induction sets as [|[g v] sets IH]; [reflexivity|]. exact IH.
Qed.

(** A poll whose body parsed, with a success status and a valid payload. *)
Lemma loadPosition_coerces (signal : option AbortSignal) env w response data :
  fetch env url signal = Normal response ->
  json response = Normal data ->
  ok response = true ->
  payload_valid data = true ->
  loadPosition signal env w
  = (fst (coercions (get_property data "latitude") (get_property data "longitude")
            (get_property data "altitude")),
     after_sets w
       (snd (coercions (get_property data "latitude") (get_property data "longitude")
               (get_property data "altitude")))).
Proof.
  intros Hf Hj Hok Hv. rewrite (loadPosition_parsed _ _ _ _ _ Hf Hj).
  apply publish_valid; assumption.
Qed.

(** When [Number] coerces all three fields, all three gauges are set. *)
Lemma loadPosition_publishes (signal : option AbortSignal) env w response data
    (latitude longitude altitude : float) :
  fetch env url signal = Normal response ->
  json response = Normal data ->
  ok response = true ->
  payload_valid data = true ->
  Number (get_property data "latitude") = Normal latitude ->
  Number (get_property data "longitude") = Normal longitude ->
  Number (get_property data "altitude") = Normal altitude ->
  loadPosition signal env w
  = (Normal tt,
     published w latitudeMetric longitudeMetric altitudeMetric
       latitude longitude altitude).
Proof.
  intros Hf Hj Hok Hv Hla Hlo Hal.
  rewrite (loadPosition_coerces _ _ _ _ _ Hf Hj Hok Hv).
  unfold Poller.coercions. rewrite Hla, Hlo, Hal. reflexivity.
Qed.

(** [Number] does not throw on a primitive value. *)
Lemma Number_of_primitive (v : JsValue) :
  (forall elements, v <> JArray elements) ->
  (forall properties, v <> JObject properties) ->
  exists n, Number v = Normal n.
Proof.
  intros Harray Hobject.
  destruct v as [| | | | |elements|properties]; try (eexists; reflexivity).
  - exfalso. exact (Harray elements eq_refl).
  - exfalso. exact (Hobject properties eq_refl).
Qed.

(** [Number] leaves a number as it is. *)
Lemma Number_of_number (n : float) : Number (JNumber n) = Normal n.
Proof. reflexivity. Qed.

(** C2, as amended. [loadPosition] throws only what [Number] throws on a
    field of a payload that passed validation; for every other outcome of
    [fetch] and [json] and every other payload the call completes normally.
    A poll that fails in one of the four ways ends, normally, with that
    failure logged. *)
Theorem loadPosition_throws_only_from_Number (signal : option AbortSignal) env w :
  let result := loadPosition signal env w in
  (fst result = Normal tt \/
   exists response data field e,
     fetch env url signal = Normal response /\
     json response = Normal data /\
     ok response = true /\
     payload_valid data = true /\
     field ∈ ["latitude"; "longitude"; "altitude"] /\
     Number (get_property data field) = Throw e /\
     fst result = Throw e) /\
  (FailedPoll url signal env ->
   exists msg context, result = (Normal tt, logged w msg context)).
Proof.
  cbv zeta. split.
  - destruct (poll_cases signal env) as [Hfail | (response & data & Hf & Hj & Hok & Hv)].
    + destruct (failed_poll_logs signal env w Hfail) as (msg & context & Hrun).
      left. rewrite Hrun. reflexivity.
    + rewrite (loadPosition_coerces _ _ _ _ _ Hf Hj Hok Hv). cbn [fst].
      unfold Poller.coercions.
      destruct (Number (get_property data "latitude")) as [a|e] eqn:Hla.
      * destruct (Number (get_property data "longitude")) as [b|e] eqn:Hlo.
        -- destruct (Number (get_property data "altitude")) as [c|e] eqn:Hal.
           ++ left. reflexivity.
           ++ right. exists response, data, "altitude", e.
              repeat (split; [assumption || (right; right; left)|]). reflexivity.
        -- right. exists response, data, "longitude", e.
           repeat (split; [assumption || (right; left)|]). reflexivity.
      * right. exists response, data, "latitude", e.
        repeat (split; [assumption || left|]). reflexivity.
  - apply failed_poll_logs.
Qed.

(** C3, as amended. Happy path: when fetch and parse succeed, the status is
    a success, [latitude], [longitude] and [altitude] are truthy and [Number]
    coerces each of them, each gauge is set to the value of its field (the
    field itself when it is a number); with three different gauges, each
    then holds the value of its field. *)
Theorem happy_path (signal : option AbortSignal) env w response data
    (latitude longitude altitude : float) :
  fetch env url signal = Normal response ->
  json response = Normal data ->
  ok response = true ->
  ToBoolean (get_property data "latitude") = true ->
  ToBoolean (get_property data "longitude") = true ->
  ToBoolean (get_property data "altitude") = true ->
  Number (get_property data "latitude") = Normal latitude ->
  Number (get_property data "longitude") = Normal longitude ->
  Number (get_property data "altitude") = Normal altitude ->
  let result := loadPosition signal env w in
  fst result = Normal tt /\
  calls (snd result) = (calls w ++ [GaugeSet latitudeMetric latitude;
                                    GaugeSet longitudeMetric longitude;
                                    GaugeSet altitudeMetric altitude])%list /\
  gauges (snd result) = showing latitude longitude altitude (gauges w) /\
  (NoDup [latitudeMetric; longitudeMetric; altitudeMetric] ->
   gauges (snd result) !! latitudeMetric = Some latitude /\
   gauges (snd result) !! longitudeMetric = Some longitude /\
   gauges (snd result) !! altitudeMetric = Some altitude).
Proof.
  intros Hf Hj Hok Hla Hlo Hal Hna Hno Hnl. cbv zeta.
  rewrite (loadPosition_publishes _ _ _ _ _ _ _ _ Hf Hj Hok
             (truthy_fields_valid _ Hla Hlo Hal) Hna Hno Hnl).
  unfold published, Poller.showing. cbn [fst snd gauges calls].
  split; [reflexivity|]. split; [reflexivity|]. split; [reflexivity|].
  intros Hdistinct.
  apply NoDup_cons in Hdistinct as [Hn1 Hdistinct].
  apply NoDup_cons in Hdistinct as [Hn2 _].
  assert (latitudeMetric ≠ longitudeMetric) by (intros ->; apply Hn1; left).
  assert (latitudeMetric ≠ altitudeMetric) by (intros ->; apply Hn1; right; left).
  assert (longitudeMetric ≠ altitudeMetric) by (intros ->; apply Hn2; left).
  repeat split.
  - rewrite lookup_insert_ne, lookup_insert_ne, lookup_insert_eq by congruence.
    reflexivity.
  - rewrite lookup_insert_ne, lookup_insert_eq by congruence. reflexivity.
  - apply lookup_insert_eq.
Qed.

(** A number that equals zero is falsy, whatever its sign. *)
Lemma zero_is_falsy (z : float) : PrimFloat.eqb z 0 = true -> ToBoolean (JNumber z) = false.
Proof. intros H. simpl. rewrite H. reflexivity. Qed.

Lemma falsy_field_invalid (data : JsValue) (field : string) :
  field ∈ ["latitude"; "longitude"; "altitude"] ->
  ToBoolean (get_property data field) = false ->
  payload_valid data = false.
Proof.
  intros Hin Hfalsy. unfold payload_valid.
  repeat (apply elem_of_cons in Hin as [->|Hin]);
    [| | |inversion Hin]; rewrite Hfalsy;
    destruct (ToBoolean data); cbn [andb]; try reflexivity.
  - destruct (ToBoolean (get_property data "latitude")); reflexivity.
  - destruct (ToBoolean (get_property data "latitude")),
             (ToBoolean (get_property data "longitude")); reflexivity.
Qed.

(** C4. Zero-value quirk: when the fetched and parsed payload has a
    [latitude], [longitude] or [altitude] that is exactly zero, no gauge is
    set; after a success status the validation fails and the one thing
    logged is the unexpected-payload error, with the raw data. *)
Theorem zero_value_quirk (signal : option AbortSignal) env w response data
    (field : string) (z : float) :
  fetch env url signal = Normal response ->
  json response = Normal data ->
  field ∈ ["latitude"; "longitude"; "altitude"] ->
  get_property data field = JNumber z ->
  PrimFloat.eqb z 0 = true ->
  let result := loadPosition signal env w in
  payload_valid data = false /\
  fst result = Normal tt /\
  gauge_sets (calls (snd result)) = gauge_sets (calls w) /\
  gauges (snd result) = gauges w /\
  (ok response = true ->
   snd result = logged w "Failed to parse ISS position data: Unexpected payload"
                         [("data", LData data)]).
Proof.
  intros Hf Hj Hin Hfield Hz. cbv zeta.
  assert (payload_valid data = false) as Hv.
  { apply (falsy_field_invalid data field Hin). rewrite Hfield.
    apply zero_is_falsy. exact Hz. }
  split; [exact Hv|].
  rewrite (loadPosition_parsed _ _ _ _ _ Hf Hj).
  destruct (ok response) eqn:Hok.
  - rewrite (publish_invalid _ _ _ _ Hok Hv). cbn [fst snd].
    split; [reflexivity|]. split; [apply gauge_sets_logged|]. split; reflexivity.
  - rewrite (publish_not_ok _ data _ _ Hok). cbn [fst snd].
    split; [reflexivity|]. split; [apply gauge_sets_logged|].
    split; [reflexivity|discriminate].
Qed.

(** C5. Transport and parse failures: when [fetch] rejects (network failure
    or abort) or [json] rejects (malformed body), the one thing done is to
    log the error's message; no gauge is touched, and the call returns.
    Both rejections take the same path. *)
Theorem transport_or_parse_failure (signal : option AbortSignal) env w (e : Error) :
  (fetch env url signal = Throw e \/
   exists response, fetch env url signal = Normal response /\ json response = Throw e) ->
  let result := loadPosition signal env w in
  result = (Normal tt,
            logged w "Failed to fetch ISS position data"
                     [("message", LString (message e))]) /\
  gauge_sets (calls (snd result)) = gauge_sets (calls w) /\
  gauges (snd result) = gauges w.
Proof.
  intros Hraise. cbv zeta.
  assert (loadPosition signal env w
          = (Normal tt, logged w "Failed to fetch ISS position data"
                                 [("message", LString (message e))])) as Hrun.
  { destruct Hraise as [Hf | (response & Hf & Hj)].
    - apply loadPosition_rejected. exact Hf.
    - eapply loadPosition_unparsed; eassumption. }
  rewrite Hrun. cbn [snd].
  split; [reflexivity|]. split; [apply gauge_sets_logged|reflexivity].
Qed.

(** Cancellation: a poll whose signal is aborted while the request is
    pending ends on the same path, with the reason's message logged. *)
Lemma aborted_poll_is_logged (signal : AbortSignal) env w :
  honours_abort env ->
  aborted signal = true ->
  loadPosition (Some signal) env w
  = (Normal tt,
     logged w "Failed to fetch ISS position data"
              [("message", LString (message (reason signal)))]).
Proof.
  intros Hhonours Haborted. apply loadPosition_rejected.
  apply Hhonours. exact Haborted.
Qed.

(** C6. HTTP status failure: when the body parses but the status is not a
    success, the one thing done is to log an error with the status text
    and the response; no gauge is updated, and the call returns. *)
Theorem status_failure (signal : option AbortSignal) env w response data :
  fetch env url signal = Normal response ->
  json response = Normal data ->
  ok response = false ->
  let result := loadPosition signal env w in
  result = (Normal tt,
            logged w ("Failed to fetch ISS position data: " ++ statusText response)
                     [("response", LResponse response)]) /\
  gauge_sets (calls (snd result)) = gauge_sets (calls w) /\
  gauges (snd result) = gauges w.
Proof.
  intros Hf Hj Hok. cbv zeta.
  rewrite (loadPosition_parsed _ _ _ _ _ Hf Hj), (publish_not_ok _ data _ _ Hok).
  cbn [snd]. split; [reflexivity|]. split; [apply gauge_sets_logged|reflexivity].
Qed.

(** C7. Ordering of the checks: when the body of a non-success response
    does not parse, the call leaves through the catch branch, logging the
    error's message, and not through the status branch, whose log of the
    status text is not made. *)
Theorem parse_failure_before_status_check (signal : option AbortSignal) env w response
    (e : Error) :
  fetch env url signal = Normal response ->
  json response = Throw e ->
  ok response = false ->
  let result := loadPosition signal env w in
  result = (Normal tt,
            logged w "Failed to fetch ISS position data"
                     [("message", LString (message e))]) /\
  log_errors (calls (snd result))
  = (log_errors (calls w)
     ++ [("Failed to fetch ISS position data", [("message", LString (message e))])])%list /\
  snd result ≠ logged w ("Failed to fetch ISS position data: " ++ statusText response)
                        [("response", LResponse response)].
Proof.
  intros Hf Hj Hok. cbv zeta.
  rewrite (loadPosition_unparsed _ _ _ _ _ Hf Hj). cbn [snd].
  split; [reflexivity|]. split.
  - unfold logged, log_errors. cbn [calls]. rewrite omap_app. reflexivity.
  - unfold logged. intros Heq.
    assert (calls w ++ [LogError "Failed to fetch ISS position data"
                          [("message", LString (message e))]]
            = calls w ++ [LogError ("Failed to fetch ISS position data: "
                                    ++ statusText response)
                            [("response", LResponse response)]])%list as Hcalls
      by (injection Heq; trivial).
    apply app_inv_head in Hcalls. discriminate Hcalls.
Qed.

(** C8, as amended. A poll that returns sets all three gauges, latitude,
    longitude and altitude in that order, or none of them, leaving all
    values as they were. Fewer than three are set only when the call
    throws, which it does when [Number] throws on the longitude or on the
    altitude: the gauges before that field are then set. *)
Theorem no_partial_update_unless_thrown (signal : option AbortSignal) env w :
  let result := loadPosition signal env w in
  exists new,
    calls (snd result) = (calls w ++ new)%list /\
    ((gauge_sets new = [] /\ gauges (snd result) = gauges w) \/
     (exists latitude longitude altitude,
        fst result = Normal tt /\
        new = [GaugeSet latitudeMetric latitude;
               GaugeSet longitudeMetric longitude;
               GaugeSet altitudeMetric altitude]) \/
     (exists e latitude,
        fst result = Throw e /\
        (new = [GaugeSet latitudeMetric latitude] \/
         exists longitude,
           new = [GaugeSet latitudeMetric latitude;
                  GaugeSet longitudeMetric longitude]))).
Proof.
  cbv zeta.
  destruct (poll_cases signal env) as [Hfail | (response & data & Hf & Hj & Hok & Hv)].
  - destruct (failed_poll_logs signal env w Hfail) as (msg & context & Hrun).
    exists [LogError msg context]. rewrite Hrun. cbn [snd].
    split; [reflexivity|]. left. split; reflexivity.
  - rewrite (loadPosition_coerces _ _ _ _ _ Hf Hj Hok Hv). cbn [fst snd].
    unfold Poller.coercions, after_sets.
    destruct (Number (get_property data "latitude")) as [a|e].
    + destruct (Number (get_property data "longitude")) as [b|e].
      * destruct (Number (get_property data "altitude")) as [c|e];
          cbn [fst snd calls gauges map foldl]; eexists; (split; [reflexivity|]).
        -- right. left. eexists _, _, _. split; reflexivity.
        -- right. right. exists e, a. split; [reflexivity|]. right. eexists. reflexivity.
      * cbn [fst snd calls gauges map foldl]. eexists. split; [reflexivity|].
        right. right. exists e, a. split; [reflexivity|]. left. reflexivity.
    + cbn [fst snd calls gauges map foldl]. exists []. split; [reflexivity|].
      left. split; reflexivity.
Qed.

(** C10, as amended. Validation checks truthiness only: when the three
    fields are truthy, whatever their types, validation passes and no error
    is logged; when [Number] coerces the three, the poll does nothing but
    set each gauge to [Number] of its field (which may be NaN), and when
    [Number] throws on one, the call throws. *)
Theorem truthy_fields_pass_validation (signal : option AbortSignal) env w response data :
  fetch env url signal = Normal response ->
  json response = Normal data ->
  ok response = true ->
  ToBoolean (get_property data "latitude") = true ->
  ToBoolean (get_property data "longitude") = true ->
  ToBoolean (get_property data "altitude") = true ->
  let result := loadPosition signal env w in
  payload_valid data = true /\
  log_errors (calls (snd result)) = log_errors (calls w) /\
  (forall latitude longitude altitude,
     Number (get_property data "latitude") = Normal latitude ->
     Number (get_property data "longitude") = Normal longitude ->
     Number (get_property data "altitude") = Normal altitude ->
     result = (Normal tt,
               published w latitudeMetric longitudeMetric altitudeMetric
                 latitude longitude altitude)) /\
  (forall field e,
     field ∈ ["latitude"; "longitude"; "altitude"] ->
     Number (get_property data field) = Throw e ->
     exists e', fst result = Throw e').
Proof.
  intros Hf Hj Hok Hla Hlo Hal. cbv zeta.
  pose proof (truthy_fields_valid _ Hla Hlo Hal) as Hv.
  split; [exact Hv|]. split; [|split].
  - rewrite (loadPosition_coerces _ _ _ _ _ Hf Hj Hok Hv). cbn [snd].
    apply log_errors_after_sets.
  - intros latitude longitude altitude Hna Hno Hnl.
    apply (loadPosition_publishes _ _ _ _ _ _ _ _ Hf Hj Hok Hv Hna Hno Hnl).
  - intros field e Hfield Hthrow.
    rewrite (loadPosition_coerces _ _ _ _ _ Hf Hj Hok Hv). cbn [fst].
    unfold Poller.coercions.
    repeat (apply elem_of_cons in Hfield as [->|Hfield]); [| | |inversion Hfield].
    + rewrite Hthrow. eexists. reflexivity.
    + destruct (Number (get_property data "latitude")); [|eexists; reflexivity].
      rewrite Hthrow. eexists. reflexivity.
    + destruct (Number (get_property data "latitude")); [|eexists; reflexivity].
      destruct (Number (get_property data "longitude")); [|eexists; reflexivity].
      rewrite Hthrow. eexists. reflexivity.
Qed.


End Facts.

(** *** The claims on the sample polls *)

Import Samples MoreSamples.

Abbreviation sample_poll := (positionLoader no_digits api 0 1 2 None).


(** [Number] throws on the longitude, an object with an own [toString]
    property, after the latitude gauge was set: the call throws. *)
Lemma loadPosition_throws_on_object_field :
  sample_poll (answering (Normal (success unnumbered_longitude))) empty_world
  = (Throw not_primitive, after_sets empty_world [(0%nat, 51.5%float)]).
Proof. reflexivity. Qed.

Lemma happy_path_witness :
  let result := sample_poll (answering (Normal (success london))) empty_world in
  fst result = Normal tt /\
  calls (snd result) = [GaugeSet 0 51.5; GaugeSet 1 (-0.1); GaugeSet 2 408.2] /\
  gauges (snd result) !! 0 = Some 51.5%float /\
  gauges (snd result) !! 1 = Some (-0.1)%float /\
  gauges (snd result) !! 2 = Some 408.2%float.
Proof.
  destruct (happy_path no_digits api 0 1 2 None
              (answering (Normal (success london))) empty_world (success london) london
              51.5%float (-0.1)%float 408.2%float
              eq_refl eq_refl eq_refl eq_refl eq_refl eq_refl eq_refl eq_refl eq_refl)
    as (Hreturn & Hcalls & _ & Hshown).
  split; [exact Hreturn|]. split; [exact Hcalls|].
  apply Hshown. apply (bool_decide_unpack _). reflexivity.
Defined.

(** The three fields are present and truthy, the status is a success, and
    yet the longitude and altitude gauges are not set: only latitude is. *)
Lemma truthy_fields_not_all_set :
  let result :=
    sample_poll (answering (Normal (success unnumbered_longitude))) empty_world in
  ok (success unnumbered_longitude) = true /\
  ToBoolean (get_property unnumbered_longitude "latitude") = true /\
  ToBoolean (get_property unnumbered_longitude "longitude") = true /\
  ToBoolean (get_property unnumbered_longitude "altitude") = true /\
  fst result = Throw not_primitive /\
  gauge_sets (calls (snd result)) = [(0%nat, 51.5%float)].
Proof. repeat split. Qed.

Lemma zero_value_quirk_witness :
  let result := sample_poll (answering (Normal (success on_equator))) empty_world in
  payload_valid on_equator = false /\
  fst result = Normal tt /\
  gauge_sets (calls (snd result)) = [] /\
  gauges (snd result) = ∅ /\
  snd result = logged empty_world "Failed to parse ISS position data: Unexpected payload"
                      [("data", LData on_equator)].
Proof.
  destruct (zero_value_quirk no_digits api 0 1 2 None
              (answering (Normal (success on_equator))) empty_world (success on_equator)
              on_equator "latitude" 0%float eq_refl eq_refl
              (list_elem_of_here _ _) eq_refl eq_refl)
    as (Hinvalid & Hreturn & Hsets & Hgauges & Hlogged).
  exact (conj Hinvalid (conj Hreturn (conj Hsets (conj Hgauges (Hlogged eq_refl))))).
Defined.

Lemma transport_or_parse_failure_witness :
  let result := sample_poll (answering (Throw abort_error)) empty_world in
  result = (Normal tt,
            logged empty_world "Failed to fetch ISS position data"
                   [("message", LString "This operation was aborted")]) /\
  gauge_sets (calls (snd result)) = [] /\
  gauges (snd result) = ∅.
Proof.
  apply (transport_or_parse_failure no_digits api 0 1 2 None
           (answering (Throw abort_error)) empty_world abort_error).
  left. reflexivity.
Defined.

Lemma status_failure_witness :
  let result := sample_poll (answering (Normal (server_error (Normal london)))) empty_world in
  result = (Normal tt,
            logged empty_world "Failed to fetch ISS position data: Internal Server Error"
                   [("response", LResponse (server_error (Normal london)))]) /\
  gauge_sets (calls (snd result)) = [] /\
  gauges (snd result) = ∅.
Proof.
  apply (status_failure no_digits api 0 1 2 None
           (answering (Normal (server_error (Normal london)))) empty_world
           (server_error (Normal london)) london);
    reflexivity.
Defined.

Lemma parse_failure_before_status_check_witness :
  let result :=
    sample_poll (answering (Normal (server_error (Throw syntax_error)))) empty_world in
  result = (Normal tt,
            logged empty_world "Failed to fetch ISS position data"
                   [("message", LString "Unexpected token < in JSON at position 0")]) /\
  log_errors (calls (snd result))
  = [("Failed to fetch ISS position data",
      [("message", LString "Unexpected token < in JSON at position 0")])] /\
  snd result ≠ logged empty_world "Failed to fetch ISS position data: Internal Server Error"
                      [("response", LResponse (server_error (Throw syntax_error)))].
Proof.
  apply (parse_failure_before_status_check no_digits api 0 1 2 None
           (answering (Normal (server_error (Throw syntax_error)))) empty_world
           (server_error (Throw syntax_error)) syntax_error);
    reflexivity.
Defined.

(** With an altitude on which [Number] throws, two of the three gauges are
    set: a strict, non-empty subset. *)
Lemma two_of_three_gauges_set :
  gauge_sets (calls (snd (sample_poll (answering (Normal (success unnumbered_altitude)))
                            empty_world)))
  = [(0%nat, 51.5%float); (1%nat, (-0.1)%float)].
Proof. reflexivity. Qed.

Lemma truthy_fields_pass_validation_witness :
  let result := sample_poll (answering (Normal (success mistyped))) empty_world in
  payload_valid mistyped = true /\
  log_errors (calls (snd result)) = [] /\
  result = (Normal tt, published empty_world 0 1 2 nan 1%float 400%float).
Proof.
  destruct (truthy_fields_pass_validation no_digits api 0 1 2 None
              (answering (Normal (success mistyped))) empty_world (success mistyped)
              mistyped eq_refl eq_refl eq_refl eq_refl eq_refl eq_refl)
    as (Hvalid & Hlog & Hpublished & _).
  exact (conj Hvalid (conj Hlog (Hpublished nan 1%float 400%float
                                   eq_refl eq_refl eq_refl))).
Defined.

(** A truthy latitude on which [Number] throws: validation passes, and the
    call throws before any gauge is set, instead of setting each gauge. *)
Lemma truthy_object_field_throws :
  let result :=
    sample_poll (answering (Normal (success unnumbered_latitude))) empty_world in
  payload_valid unnumbered_latitude = true /\
  result = (Throw not_primitive, empty_world).
Proof. split; reflexivity. Qed.

End PollerFacts.

(** * Properties of the scheduler *)

Module SchedulerFacts.
Import Js Scheduler.

Section Facts.

Variable interval : Z.
Variable first_due : Z.

Abbreviation step := (step interval).
Abbreviation reachable := (reachable interval first_due).
Abbreviation invariant := (invariant interval).
Abbreviation spaced := (spaced interval).

Lemma invariant_initial : invariant (initial first_due).
Proof.
  split; cbn.
  - lia.
  - intros k Hk. inversion Hk.
  - intros due _. left. reflexivity.
  - exact I.
Qed.

(** With a timer armed, it is the only one and nothing is in flight. *)
Lemma armed_alone (s : State) pre due post :
  invariant s -> timers s = (pre ++ due :: post)%list ->
  pre = [] /\ post = [] /\ in_flight s = [].
Proof.
  intros Hinv Ht. pose proof (inv_one _ _ Hinv) as Hone.
  rewrite Ht, length_app in Hone. cbn in Hone.
  destruct pre; cbn in Hone; [|lia].
  destruct post; cbn in Hone; [|lia].
  destruct (in_flight s); cbn in Hone; [auto|lia].
Qed.

(** With an invocation in flight, it is the only one and no timer is armed. *)
Lemma in_flight_alone (s : State) k :
  invariant s -> k ∈ in_flight s -> in_flight s = [k] /\ timers s = [].
Proof.
  intros Hinv Hk. pose proof (inv_one _ _ Hinv) as Hone.
  destruct (in_flight s) as [|j rest]; [inversion Hk|].
  cbn in Hone. destruct rest; cbn in Hone; [|lia].
  destruct (timers s); cbn in Hone; [|lia].
  apply list_elem_of_singleton in Hk. subst. auto.
Qed.

Lemma spaced_app (new h : list Event) :
  (forall k t, Started k t ∉ new) -> spaced h -> spaced (new ++ h).
Proof.
  intros Hnew Hh. induction new as [|e new IH]; [exact Hh|].
  assert (spaced (new ++ h)) as Hrest.
  { apply IH. intros k t Hin. apply (Hnew k t). right. exact Hin. }
  destruct e as [k t| | | |]; cbn; try exact Hrest.
  exfalso. apply (Hnew k t). left.
Qed.

Lemma invariant_step (s s' : State) : invariant s -> step s s' -> invariant s'.
Proof.
  intros Hinv Hstep.
  destruct Hstep as [s pre due post t Ht Hclock Hdue | s k t result Hk Hclock | s t Hclock].
  - destruct (armed_alone s pre due post Hinv Ht) as (-> & -> & Hnone).
    split; cbn.
    + rewrite Hnone. cbn. lia.
    + rewrite Hnone. intros k Hk. apply list_elem_of_singleton in Hk. congruence.
    + intros d Hd. inversion Hd.
    + assert (spaced (history s)) as Hs by apply (inv_spaced _ _ Hinv).
      destruct (started s) as [|k] eqn:Hstarted; [exact Hs|].
      split; [|exact Hs].
      destruct (inv_due _ _ Hinv due) as [Hz | (k' & t' & result & Hk' & Hsettled & ->)].
      * rewrite Ht. left.
      * congruence.
      * exists t', result. replace k with k' by congruence. auto.
  - destruct (in_flight_alone s k Hinv Hk) as (Hone & Hnone).
    assert (filter (fun j => j ≠ k) (in_flight s) = []) as Hfilter.
    { rewrite Hone. cbn. destruct (decide (k ≠ k)); [congruence|reflexivity]. }
    split; cbn.
    + rewrite Hfilter, Hnone. destruct (stopped s); cbn; lia.
    + rewrite Hfilter. intros j Hj. inversion Hj.
    + rewrite Hnone. intros due Hdue. right.
      destruct (stopped s); [inversion Hdue|].
      apply list_elem_of_singleton in Hdue. subst due.
      exists k, t, result. split; [apply (inv_latest _ _ Hinv); exact Hk|].
      split; [|reflexivity].
      right. apply elem_of_app. right. left.
    + rewrite app_assoc. apply spaced_app; [|apply (inv_spaced _ _ Hinv)].
      intros j u Hin. apply elem_of_app in Hin as [Hin|Hin].
      * destruct (stopped s); [inversion Hin|].
        apply list_elem_of_singleton in Hin. discriminate Hin.
      * destruct result; [inversion Hin|].
        apply list_elem_of_singleton in Hin. discriminate Hin.
  - split; cbn.
    + pose proof (inv_one _ _ Hinv). lia.
    + apply (inv_latest _ _ Hinv).
    + intros due Hdue. inversion Hdue.
    + apply (inv_spaced _ _ Hinv).
Qed.

Lemma reachable_invariant (s : State) : reachable s -> invariant s.
Proof.
  revert s. apply rtc_ind_r.
  - apply invariant_initial.
  - intros s s' _ Hstep Hinv. exact (invariant_step s s' Hinv Hstep).
Qed.

(** The split form of [spaced]: wherever a start stands in the history, the
    settlement of the invocation before stands among the earlier events. *)
Lemma spaced_split (h later earlier : list Event) (k : nat) (t : Z) :
  spaced h -> h = (later ++ Started (S k) t :: earlier)%list ->
  exists t' result, Settled k t' result ∈ earlier /\ (t' + interval <= t)%Z.
Proof.
  revert h. induction later as [|e later IH]; intros h Hs ->.
  - cbn in Hs. apply Hs.
  - apply (IH (later ++ Started (S k) t :: earlier)%list); [|reflexivity].
    destruct e as [[|j] u| | | |]; cbn in Hs; try exact Hs. apply Hs.
Qed.

(** C9. Non-overlap: in every state the schedule can reach, at most one
    invocation is in flight, and while it is, no timer is armed (the timer
    for the next invocation is armed once the current one has settled);
    every invocation after the first starts after the one before it has
    settled, one interval later at the earliest, however long that one ran. *)
Theorem invocations_never_overlap (s : State) :
  reachable s ->
  (length (in_flight s) <= 1)%nat /\
  (in_flight s ≠ [] -> timers s = []) /\
  (forall later earlier k t,
     history s = (later ++ Started (S k) t :: earlier)%list ->
     exists t' result, Settled k t' result ∈ earlier /\ (t' + interval <= t)%Z).
Proof.
  intros Hreach. pose proof (reachable_invariant s Hreach) as Hinv.
  pose proof (inv_one _ _ Hinv) as Hone.
  split; [lia|]. split.
  - intros Hbusy. destruct (in_flight s); [congruence|].
    destruct (timers s); [reflexivity|]. cbn in Hone. lia.
  - intros later earlier k t Hsplit.
    exact (spaced_split (history s) later earlier k t (inv_spaced _ _ Hinv) Hsplit).
Qed.

End Facts.

Lemma invocations_never_overlap_witness :
  (length (in_flight slow_poll) <= 1)%nat /\
  (in_flight slow_poll ≠ [] -> timers slow_poll = []) /\
  (forall later earlier k t,
     history slow_poll = (later ++ Started (S k) t :: earlier)%list ->
     exists t' result, Settled k t' result ∈ earlier /\ (t' + 1000 <= t)%Z).
Proof.
  apply (invocations_never_overlap 1000 0 slow_poll).
  unfold reachable.
  eapply rtc_l; [exact (step_fire 1000 (initial 0) [] 0%Z [] 0%Z eq_refl
                          ltac:(cbn; lia) ltac:(lia))|].
  eapply rtc_l; [refine (step_settle 1000 _ 0%nat 2500%Z (Normal tt) _ _);
                 [cbn; left | cbn; lia]|].
  eapply rtc_l; [refine (step_fire 1000 _ [] 3500%Z [] 3500%Z _ _ _);
                 [reflexivity | cbn; lia | lia]|].
  apply rtc_refl.
Defined.

End SchedulerFacts.


(** * More properties of the poller *)

Module PollFacts.
Import Js Poller Runs PollerFacts.

Section Facts.

Variable NumberToString : float -> string.
Variable url : string.
Variables latitudeMetric longitudeMetric altitudeMetric : Gauge.

Abbreviation loadPosition :=
  (loadPosition NumberToString url latitudeMetric longitudeMetric altitudeMetric).
Abbreviation polls :=
  (polls NumberToString url latitudeMetric longitudeMetric altitudeMetric).
Abbreviation Number := (Number NumberToString).
Abbreviation showing := (showing latitudeMetric longitudeMetric altitudeMetric).
Abbreviation coercions :=
  (coercions NumberToString latitudeMetric longitudeMetric altitudeMetric).

(** The three outcomes of a poll whose body was parsed. *)
Lemma loadPosition_not_ok (signal : option AbortSignal) env w response data :
  fetch env url signal = Normal response ->
  json response = Normal data ->
  ok response = false ->
  loadPosition signal env w
  = (Normal tt,
     logged w ("Failed to fetch ISS position data: " ++ statusText response)
              [("response", LResponse response)]).
Proof.
  intros Hf Hj Hok.
  rewrite (loadPosition_parsed _ _ _ _ _ _ _ _ _ _ Hf Hj).
  apply publish_not_ok. exact Hok.
Qed.

Lemma loadPosition_invalid (signal : option AbortSignal) env w response data :
  fetch env url signal = Normal response ->
  json response = Normal data ->
  ok response = true ->
  payload_valid data = false ->
  loadPosition signal env w
  = (Normal tt,
     logged w "Failed to parse ISS position data: Unexpected payload"
              [("data", LData data)]).
Proof.
  intros Hf Hj Hok Hv.
  rewrite (loadPosition_parsed _ _ _ _ _ _ _ _ _ _ Hf Hj).
  apply publish_invalid; assumption.
Qed.

Lemma loadPosition_valid (signal : option AbortSignal) env w response data :
  fetch env url signal = Normal response ->
  json response = Normal data ->
  ok response = true ->
  payload_valid data = true ->
  loadPosition signal env w
  = (fst (coercions (get_property data "latitude") (get_property data "longitude")
            (get_property data "altitude")),
     after_sets w
       (snd (coercions (get_property data "latitude") (get_property data "longitude")
               (get_property data "altitude")))).
Proof. apply loadPosition_coerces. Qed.

(** The calls to [set] of the coercions are made on the three gauges, at
    most once each and in their order. *)
Lemma coercions_sets (latitude longitude altitude : JsValue) :
  exists values,
    snd (coercions latitude longitude altitude)
    = zip (take (length values) [latitudeMetric; longitudeMetric; altitudeMetric]) values
    /\ (length values <= 3)%nat.
Proof.
  unfold Poller.coercions.
  destruct (Js.Number NumberToString latitude) as [a|e]; [|exists []; split; [reflexivity|cbn; lia]].
  destruct (Js.Number NumberToString longitude) as [b|e];
    [|exists [a]; split; [reflexivity|cbn; lia]].
  destruct (Js.Number NumberToString altitude) as [c|e];
    [exists [a; b; c]|exists [a; b]]; split; try reflexivity; cbn; lia.
Qed.

(** Only the three fields decide whether a payload is valid. *)
Lemma payload_valid_fields (data : JsValue) :
  payload_valid data
  = ToBoolean (get_property data "latitude")
    && ToBoolean (get_property data "longitude")
    && ToBoolean (get_property data "altitude").
Proof.
  unfold payload_valid.
  destruct data; cbn [get_property ToBoolean andb]; rewrite ?andb_false_r; reflexivity.
Qed.

(** A key that an object does not have reads as [undefined]. *)
Lemma lookup_property_missing (k : string) (properties : list (string * JsValue)) :
  k ∉ map fst properties -> lookup_property k properties = JUndefined.
Proof.
  induction properties as [|[k' v] properties IH]; intros Hmissing; [reflexivity|].
  cbn [lookup_property]. cbn [map fst] in Hmissing.
  destruct (String.eqb k k') eqn:Heq.
  - apply String.eqb_eq in Heq. subst k'. exfalso. apply Hmissing. left.
  - apply IH. intros Hin. apply Hmissing. right. exact Hin.
Qed.

(** X1. A parsed body that is no object ([null], a boolean, a number, a
    string, an array) is an unexpected payload: after a success status the
    poll logs it with the raw data and returns; no property read throws and
    no gauge is set. *)
Theorem non_object_payload_rejected (signal : option AbortSignal) env w response data :
  fetch env url signal = Normal response ->
  json response = Normal data ->
  ok response = true ->
  (forall properties, data <> JObject properties) ->
  loadPosition signal env w
  = (Normal tt,
     logged w "Failed to parse ISS position data: Unexpected payload"
              [("data", LData data)]).
Proof.
  intros Hf Hj Hok Hshape.
  apply (loadPosition_invalid signal env w response data Hf Hj Hok).
  rewrite payload_valid_fields.
  destruct data as [| | | | | |properties]; try reflexivity.
  exfalso. exact (Hshape properties eq_refl).
Qed.

(** X2. A payload object that lacks [latitude], [longitude] or [altitude]
    is an unexpected payload: after a success status the poll logs it with
    the raw data and sets no gauge, whatever the other fields hold. *)
Theorem missing_field_rejected (signal : option AbortSignal) env w response properties
    (field : string) :
  fetch env url signal = Normal response ->
  json response = Normal (JObject properties) ->
  ok response = true ->
  field ∈ ["latitude"; "longitude"; "altitude"] ->
  field ∉ map fst properties ->
  loadPosition signal env w
  = (Normal tt,
     logged w "Failed to parse ISS position data: Unexpected payload"
              [("data", LData (JObject properties))]).
Proof.
  intros Hf Hj Hok Hfield Hmissing.
  apply (loadPosition_invalid signal env w response _ Hf Hj Hok).
  apply (falsy_field_invalid _ field Hfield).
  cbn [get_property]. rewrite (lookup_property_missing _ _ Hmissing). reflexivity.
Qed.

(** X3. Any falsy value in one of the three fields ([null], [false], the
    empty string, NaN, as well as zero) makes the payload unexpected: after
    a success status the poll logs it with the raw data and sets no gauge. *)
Theorem falsy_field_rejected (signal : option AbortSignal) env w response data
    (field : string) :
  fetch env url signal = Normal response ->
  json response = Normal data ->
  ok response = true ->
  field ∈ ["latitude"; "longitude"; "altitude"] ->
  ToBoolean (get_property data field) = false ->
  let result := loadPosition signal env w in
  result = (Normal tt,
            logged w "Failed to parse ISS position data: Unexpected payload"
                     [("data", LData data)]) /\
  gauge_sets (calls (snd result)) = gauge_sets (calls w) /\
  gauges (snd result) = gauges w.
Proof.
  intros Hf Hj Hok Hfield Hfalsy. cbv zeta.
  rewrite (loadPosition_invalid signal env w response data Hf Hj Hok
             (falsy_field_invalid data field Hfield Hfalsy)).
  cbn [snd]. split; [reflexivity|]. split; [apply gauge_sets_logged|reflexivity].
Qed.

(** X4. Only [latitude], [longitude] and [altitude] matter: two parsed
    payloads that agree on these three fields, under responses of the same
    [ok], lead to the same calls to [set] and the same gauge values,
    whatever else the payloads hold and in whatever order. *)
Theorem auxiliary_fields_ignored (signal : option AbortSignal) env1 env2 w
    response1 response2 data1 data2 :
  fetch env1 url signal = Normal response1 ->
  json response1 = Normal data1 ->
  fetch env2 url signal = Normal response2 ->
  json response2 = Normal data2 ->
  ok response1 = ok response2 ->
  (forall field, field ∈ ["latitude"; "longitude"; "altitude"] ->
                 get_property data1 field = get_property data2 field) ->
  gauge_sets (calls (snd (loadPosition signal env1 w)))
  = gauge_sets (calls (snd (loadPosition signal env2 w))) /\
  gauges (snd (loadPosition signal env1 w)) = gauges (snd (loadPosition signal env2 w)).
Proof.
  intros Hf1 Hj1 Hf2 Hj2 Hok Hsame.
  assert (get_property data1 "latitude" = get_property data2 "latitude") as Hla
    by (apply Hsame; left).
  assert (get_property data1 "longitude" = get_property data2 "longitude") as Hlo
    by (apply Hsame; right; left).
  assert (get_property data1 "altitude" = get_property data2 "altitude") as Hal
    by (apply Hsame; right; right; left).
  assert (payload_valid data1 = payload_valid data2) as Hvalid
    by (rewrite !payload_valid_fields, Hla, Hlo, Hal; reflexivity).
  destruct (ok response2) eqn:Hok2.
  - destruct (payload_valid data2) eqn:Hv2.
    + rewrite (loadPosition_valid signal env1 w response1 data1 Hf1 Hj1 Hok Hvalid).
      rewrite (loadPosition_valid signal env2 w response2 data2 Hf2 Hj2 Hok2 Hv2).
      rewrite Hla, Hlo, Hal. split; reflexivity.
    + rewrite (loadPosition_invalid signal env1 w response1 data1 Hf1 Hj1 Hok Hvalid).
      rewrite (loadPosition_invalid signal env2 w response2 data2 Hf2 Hj2 Hok2 Hv2).
      cbn [snd]. rewrite !gauge_sets_logged. split; reflexivity.
  - rewrite (loadPosition_not_ok signal env1 w response1 data1 Hf1 Hj1 Hok).
    rewrite (loadPosition_not_ok signal env2 w response2 data2 Hf2 Hj2 Hok2).
    cbn [snd]. rewrite !gauge_sets_logged. split; reflexivity.
Qed.

(** A truthy number is neither a zero nor NaN. *)
Lemma truthy_number (n : float) :
  ToBoolean (JNumber n) = true -> PrimFloat.eqb n 0 = false /\ PrimFloat.is_nan n = false.
Proof.
  cbn [ToBoolean]. intros H. apply negb_true_iff, orb_false_iff in H. exact H.
Qed.

(** X5. With a payload typed as the source declares it (the three fields
    are numbers), a gauge is never set to zero or to NaN: every value a
    poll hands to [set] is a number other than these. *)
Theorem numeric_readings_never_zero_or_nan (signal : option AbortSignal) env w response data
    (new : list Call) (g : Gauge) (value : float) :
  fetch env url signal = Normal response ->
  json response = Normal data ->
  (forall field, field ∈ ["latitude"; "longitude"; "altitude"] ->
                 exists n, get_property data field = JNumber n) ->
  calls (snd (loadPosition signal env w)) = (calls w ++ new)%list ->
  GaugeSet g value ∈ new ->
  PrimFloat.eqb value 0 = false /\ PrimFloat.is_nan value = false.
Proof.
  intros Hf Hj Hnumbers Hnew Hin.
  destruct (ok response) eqn:Hok.
  - destruct (payload_valid data) eqn:Hv.
    + rewrite (loadPosition_valid signal env w response data Hf Hj Hok Hv) in Hnew.
      rewrite payload_valid_fields in Hv.
      apply andb_true_iff in Hv as [Hv Hal]. apply andb_true_iff in Hv as [Hla Hlo].
      destruct (Hnumbers "latitude") as [la Ela]; [left|].
      destruct (Hnumbers "longitude") as [lo Elo]; [right; left|].
      destruct (Hnumbers "altitude") as [al Eal]; [right; right; left|].
      rewrite Ela in *. rewrite Elo in *. rewrite Eal in *.
      unfold Poller.coercions, after_sets in Hnew.
      cbn [Js.Number ToNumber fst snd calls map] in Hnew.
      apply app_inv_head in Hnew. subst new.
      apply elem_of_cons in Hin as [Hin|Hin];
        [injection Hin as _ ->; apply truthy_number; exact Hla|].
      apply elem_of_cons in Hin as [Hin|Hin];
        [injection Hin as _ ->; apply truthy_number; exact Hlo|].
      apply elem_of_cons in Hin as [Hin|Hin];
        [injection Hin as _ ->; apply truthy_number; exact Hal|].
      inversion Hin.
    + rewrite (loadPosition_invalid signal env w response data Hf Hj Hok Hv) in Hnew.
      unfold logged in Hnew. cbn [snd calls] in Hnew.
      apply app_inv_head in Hnew. subst new.
      apply list_elem_of_singleton in Hin. discriminate Hin.
  - rewrite (loadPosition_not_ok signal env w response data Hf Hj Hok) in Hnew.
    unfold logged in Hnew. cbn [snd calls] in Hnew.
    apply app_inv_head in Hnew. subst new.
    apply list_elem_of_singleton in Hin. discriminate Hin.
Qed.

(** X6. What each logged error means: the error-level log entry a poll adds
    is one of three, and its message and context tell which check failed;
    a rejection of [fetch] and one of [json] are logged alike, a
    non-success status is logged only for a body that parsed, and an
    unexpected payload only after a success status. *)
Theorem log_entry_tells_failure (signal : option AbortSignal) env w (new : list Call)
    (msg : string) (context : list (string * LogValue)) :
  calls (snd (loadPosition signal env w)) = (calls w ++ new)%list ->
  LogError msg context ∈ new ->
  (exists e,
     msg = "Failed to fetch ISS position data" /\
     context = [("message", LString (message e))] /\
     (fetch env url signal = Throw e \/
      exists response, fetch env url signal = Normal response /\ json response = Throw e))
  \/
  (exists response data,
     msg = "Failed to fetch ISS position data: " ++ statusText response /\
     context = [("response", LResponse response)] /\
     fetch env url signal = Normal response /\ json response = Normal data /\
     ok response = false)
  \/
  (exists response data,
     msg = "Failed to parse ISS position data: Unexpected payload" /\
     context = [("data", LData data)] /\
     fetch env url signal = Normal response /\ json response = Normal data /\
     ok response = true /\ payload_valid data = false).
Proof.
  intros Hnew Hin.
  destruct (fetch env url signal) as [response|e] eqn:Hf.
  - destruct (json response) as [data|e] eqn:Hj.
    + destruct (ok response) eqn:Hok.
      * destruct (payload_valid data) eqn:Hv.
        -- rewrite (loadPosition_valid signal env w response data Hf Hj Hok Hv) in Hnew.
           unfold after_sets in Hnew. cbn [snd calls] in Hnew.
           apply app_inv_head in Hnew. subst new.
           apply list_elem_of_fmap in Hin as (set & Hset & _). discriminate Hset.
        -- rewrite (loadPosition_invalid signal env w response data Hf Hj Hok Hv) in Hnew.
           unfold logged in Hnew. cbn [snd calls] in Hnew.
           apply app_inv_head in Hnew. subst new.
           apply list_elem_of_singleton in Hin. injection Hin as -> ->.
           right. right. exists response, data. repeat split; assumption.
      * rewrite (loadPosition_not_ok signal env w response data Hf Hj Hok) in Hnew.
        unfold logged in Hnew. cbn [snd calls] in Hnew.
        apply app_inv_head in Hnew. subst new.
        apply list_elem_of_singleton in Hin. injection Hin as -> ->.
        right. left. exists response, data. repeat split; assumption.
    + rewrite (loadPosition_unparsed _ _ _ _ _ _ _ _ _ _ Hf Hj) in Hnew.
      unfold logged in Hnew. cbn [snd calls] in Hnew.
      apply app_inv_head in Hnew. subst new.
      apply list_elem_of_singleton in Hin. injection Hin as -> ->.
      left. exists e. split; [reflexivity|]. split; [reflexivity|].
      right. exists response. split; [reflexivity|exact Hj].
  - rewrite (loadPosition_rejected _ _ _ _ _ _ _ _ _ Hf) in Hnew.
    unfold logged in Hnew. cbn [snd calls] in Hnew.
    apply app_inv_head in Hnew. subst new.
    apply list_elem_of_singleton in Hin. injection Hin as -> ->.
    left. exists e. split; [reflexivity|]. split; [reflexivity|].
    left. reflexivity.
Qed.

(** The gauges after a poll: the store as it was, or with the gauges set by
    the coercions written over it. *)
Lemma gauges_after_poll (signal : option AbortSignal) env w :
  gauges (snd (loadPosition signal env w))
  = match reading url (signal, env) with
    | Some data =>
        foldl (fun m s => <[fst s := snd s]> m) (gauges w)
          (snd (coercions (get_property data "latitude") (get_property data "longitude")
                  (get_property data "altitude")))
    | None => gauges w
    end.
Proof.
  unfold reading. cbn [fst snd].
  destruct (fetch env url signal) as [response|e] eqn:Hf.
  - destruct (json response) as [data|e] eqn:Hj.
    + destruct (ok response) eqn:Hok.
      * destruct (payload_valid data) eqn:Hv; cbn [andb].
        -- rewrite (loadPosition_valid _ _ _ _ _ Hf Hj Hok Hv). reflexivity.
        -- rewrite (loadPosition_invalid _ _ _ _ _ Hf Hj Hok Hv). reflexivity.
      * rewrite (loadPosition_not_ok _ _ _ _ _ Hf Hj Hok). reflexivity.
    + rewrite (loadPosition_unparsed _ _ _ _ _ _ _ _ _ _ Hf Hj). reflexivity.
  - rewrite (loadPosition_rejected _ _ _ _ _ _ _ _ _ Hf). reflexivity.
Qed.

(** Writes to the three gauges leave every other gauge as it was. *)
Lemma foldl_insert_other (sets : list (Gauge * float)) (m : gmap Gauge float) (g : Gauge) :
  g ∉ map fst sets ->
  foldl (fun m s => <[fst s := snd s]> m) m sets !! g = m !! g.
Proof.
  revert m. induction sets as [|[g' v] sets IH]; intros m Hother; [reflexivity|].
  cbn [foldl fst snd]. cbn [map fst] in Hother.
  rewrite IH by (intros Hin; apply Hother; right; exact Hin).
  apply lookup_insert_ne. intros ->. apply Hother. left.
Qed.

Lemma poll_keeps_other_gauges (signal : option AbortSignal) env w (g : Gauge) :
  g ∉ [latitudeMetric; longitudeMetric; altitudeMetric] ->
  gauges (snd (loadPosition signal env w)) !! g = gauges w !! g.
Proof.
  intros Hother. rewrite gauges_after_poll.
  destruct (reading url (signal, env)) as [data|]; [|reflexivity].
  apply foldl_insert_other.
  destruct (coercions_sets (get_property data "latitude") (get_property data "longitude")
              (get_property data "altitude")) as (values & -> & Hlength).
  intros Hin. apply Hother.
  apply list_elem_of_fmap in Hin as ([g' v] & -> & Hin). cbn [fst].
  apply elem_of_zip_l in Hin. cbn [fst] in Hin.
  apply (subseteq_take (length values)). exact Hin.
Qed.

Lemma runs_keep_other_gauges (ticks : list (option AbortSignal * Env)) (w : World)
    (g : Gauge) :
  g ∉ [latitudeMetric; longitudeMetric; altitudeMetric] ->
  gauges (polls ticks w) !! g = gauges w !! g.
Proof.
  intros Hother. revert w. induction ticks as [|[signal env] ticks IH]; intros w;
    [reflexivity|].
  cbn [Poller.polls]. rewrite IH. apply poll_keeps_other_gauges. exact Hother.
Qed.

(** X7. The poller writes to its three gauges only: over any run of polls,
    every other gauge of the store keeps its value. *)
Theorem other_gauges_untouched (ticks : list (option AbortSignal * Env)) (w : World)
    (g : Gauge) :
  g ∉ [latitudeMetric; longitudeMetric; altitudeMetric] ->
  gauges (polls ticks w) !! g = gauges w !! g.
Proof.
  intros Hother. revert w. induction ticks as [|[signal env] ticks IH]; intros w;
    [reflexivity|].
  cbn [Poller.polls]. rewrite IH. apply poll_keeps_other_gauges. exact Hother.
Qed.

(** A failed poll leaves the gauge store as it was. *)
Lemma failed_polls_keep_gauges (after : list (option AbortSignal * Env)) (w : World) :
  Forall (fun tick => reading url tick = None) after ->
  gauges (polls after w) = gauges w.
Proof.
  intros Hafter. revert w.
  induction Hafter as [|[signal env] after Htick _ IH]; intros w; [reflexivity|].
  cbn [Poller.polls]. rewrite IH, gauges_after_poll, Htick. reflexivity.
Qed.

Lemma polls_app (before after : list (option AbortSignal * Env)) (w : World) :
  polls (before ++ after) w = polls after (polls before w).
Proof.
  revert w. induction before as [|[signal env] before IH]; intros w; [reflexivity|].
  cbn [app Poller.polls]. apply IH.
Qed.

(** X8. The latest success wins: when a poll passed every check, [Number]
    coerced its three fields, and every poll after it failed, the gauges
    hold the values of that poll, whatever the polls before it did (also
    where one of them threw after setting one or two gauges) and however
    many failures followed. *)
Theorem latest_success_shows (before after : list (option AbortSignal * Env))
    (good : option AbortSignal * Env) (data : JsValue) (w : World)
    (latitude longitude altitude : float) :
  reading url good = Some data ->
  Number (get_property data "latitude") = Normal latitude ->
  Number (get_property data "longitude") = Normal longitude ->
  Number (get_property data "altitude") = Normal altitude ->
  Forall (fun tick => reading url tick = None) after ->
  gauges (polls (before ++ good :: after) w)
  = showing latitude longitude altitude (gauges w).
Proof.
  intros Hgood Hla Hlo Hal Hafter.
  rewrite polls_app. cbn [Poller.polls]. destruct good as [signal env].
  rewrite (failed_polls_keep_gauges after _ Hafter), gauges_after_poll, Hgood.
  unfold Poller.coercions. rewrite Hla, Hlo, Hal. cbn [snd foldl fst].
  unfold Poller.showing. apply map_eq. intros g.
  destruct (decide (altitudeMetric = g)) as [->|Ha];
    [rewrite !lookup_insert_eq; reflexivity|].
  rewrite !(lookup_insert_ne _ altitudeMetric g) by assumption.
  destruct (decide (longitudeMetric = g)) as [->|Ho];
    [rewrite !lookup_insert_eq; reflexivity|].
  rewrite !(lookup_insert_ne _ longitudeMetric g) by assumption.
  destruct (decide (latitudeMetric = g)) as [->|Hl];
    [rewrite !lookup_insert_eq; reflexivity|].
  rewrite !(lookup_insert_ne _ latitudeMetric g) by assumption.
  rewrite (runs_keep_other_gauges before w g); [reflexivity|].
  intros Hin.
  repeat (apply elem_of_cons in Hin as [Hin|Hin]; [congruence|]).
  inversion Hin.
Qed.



End Facts.

(** *** The properties on sample polls *)

Import Samples MoreSamples.

Abbreviation sample_poll := (positionLoader no_digits api 0 1 2 None).
Abbreviation sample_run := (polls no_digits api 0 1 2).

Lemma non_object_payload_rejected_witness :
  sample_poll (answering (Normal (success JNull))) empty_world
  = (Normal tt,
     logged empty_world "Failed to parse ISS position data: Unexpected payload"
            [("data", LData JNull)]).
Proof.
  apply (non_object_payload_rejected no_digits api 0 1 2 None
           (answering (Normal (success JNull))) empty_world (success JNull) JNull
           eq_refl eq_refl eq_refl).
  intros properties H. discriminate H.
Defined.

Lemma missing_field_rejected_witness :
  sample_poll (answering (Normal (success no_altitude))) empty_world
  = (Normal tt,
     logged empty_world "Failed to parse ISS position data: Unexpected payload"
            [("data", LData no_altitude)]).
Proof.
  apply (missing_field_rejected no_digits api 0 1 2 None
           (answering (Normal (success no_altitude))) empty_world (success no_altitude)
           [("latitude", JNumber 51.5); ("longitude", JNumber (-0.1))] "altitude"
           eq_refl eq_refl eq_refl).
  - right. right. left.
  - intros Hin. cbn in Hin.
    apply elem_of_cons in Hin as [Hin|Hin]; [discriminate Hin|].
    apply list_elem_of_singleton in Hin. discriminate Hin.
Defined.

Lemma falsy_field_rejected_witness :
  let result := sample_poll (answering (Normal (success null_altitude))) empty_world in
  result = (Normal tt,
            logged empty_world "Failed to parse ISS position data: Unexpected payload"
                   [("data", LData null_altitude)]) /\
  gauge_sets (calls (snd result)) = [] /\
  gauges (snd result) = ∅.
Proof.
  apply (falsy_field_rejected no_digits api 0 1 2 None
           (answering (Normal (success null_altitude))) empty_world
           (success null_altitude) null_altitude "altitude" eq_refl eq_refl eq_refl).
  - right. right. left.
  - reflexivity.
Defined.

Lemma auxiliary_fields_ignored_witness :
  gauge_sets (calls (snd (sample_poll (answering (Normal (success london))) empty_world)))
  = gauge_sets (calls (snd (sample_poll (answering (Normal (success london_bare)))
                              empty_world))) /\
  gauges (snd (sample_poll (answering (Normal (success london))) empty_world))
  = gauges (snd (sample_poll (answering (Normal (success london_bare))) empty_world)).
Proof.
  apply (auxiliary_fields_ignored no_digits api 0 1 2 None
           (answering (Normal (success london)))
           (answering (Normal (success london_bare))) empty_world
           (success london) (success london_bare) london london_bare
           eq_refl eq_refl eq_refl eq_refl eq_refl).
  intros field Hin.
  repeat (apply elem_of_cons in Hin as [->|Hin]; [reflexivity|]).
  inversion Hin.
Defined.

Lemma numeric_readings_never_zero_or_nan_witness :
  PrimFloat.eqb 408.2 0 = false /\ PrimFloat.is_nan 408.2 = false.
Proof.
  apply (numeric_readings_never_zero_or_nan no_digits api 0 1 2 None
           (answering (Normal (success london))) empty_world (success london) london
           [GaugeSet 0 51.5; GaugeSet 1 (-0.1); GaugeSet 2 408.2] 2 408.2%float
           eq_refl eq_refl).
  - intros field Hin.
    repeat (apply elem_of_cons in Hin as [->|Hin]; [eexists; reflexivity|]).
    inversion Hin.
  - reflexivity.
  - right. right. left.
Defined.

Lemma log_entry_tells_failure_witness :
  (exists e,
     "Failed to fetch ISS position data: Internal Server Error"
     = "Failed to fetch ISS position data" /\
     [("response", LResponse (server_error (Normal london)))]
     = [("message", LString (message e))] /\
     (Normal (server_error (Normal london)) = Throw e \/
      exists response,
        Normal (server_error (Normal london)) = Normal response /\ json response = Throw e))
  \/
  (exists response data,
     "Failed to fetch ISS position data: Internal Server Error"
     = "Failed to fetch ISS position data: " ++ statusText response /\
     [("response", LResponse (server_error (Normal london)))]
     = [("response", LResponse response)] /\
     Normal (server_error (Normal london)) = Normal response /\
     json response = Normal data /\
     ok response = false)
  \/
  (exists response data,
     "Failed to fetch ISS position data: Internal Server Error"
     = "Failed to parse ISS position data: Unexpected payload" /\
     [("response", LResponse (server_error (Normal london)))] = [("data", LData data)] /\
     Normal (server_error (Normal london)) = Normal response /\
     json response = Normal data /\
     ok response = true /\ payload_valid data = false).
Proof.
  apply (log_entry_tells_failure no_digits api 0 1 2 None
           (answering (Normal (server_error (Normal london)))) empty_world
           [LogError "Failed to fetch ISS position data: Internal Server Error"
              [("response", LResponse (server_error (Normal london)))]]
           "Failed to fetch ISS position data: Internal Server Error"
           [("response", LResponse (server_error (Normal london)))]).
  - reflexivity.
  - left.
Defined.

Lemma other_gauges_untouched_witness :
  let w := {| gauges := {[7%nat := 1%float]}; calls := [] |} in
  gauges (sample_run [(None, answering (Normal (success london)))] w) !! 7%nat
  = gauges w !! 7%nat.
Proof.
  apply (other_gauges_untouched no_digits api 0 1 2
           [(None, answering (Normal (success london)))]
           {| gauges := {[7%nat := 1%float]}; calls := [] |} 7%nat).
  intros Hin.
  repeat (apply elem_of_cons in Hin as [Hin|Hin]; [discriminate Hin|]).
  inversion Hin.
Defined.

Lemma latest_success_shows_witness :
  gauges (sample_run ([(None, answering (Normal (success unnumbered_longitude)))]
                      ++ (None, answering (Normal (success london)))
                         :: [(None, answering (Throw abort_error));
                             (None, answering (Normal (server_error (Normal london))))])
            empty_world)
  = showing 0 1 2 51.5 (-0.1) 408.2 ∅.
Proof.
  apply (latest_success_shows no_digits api 0 1 2
           [(None, answering (Normal (success unnumbered_longitude)))]
           [(None, answering (Throw abort_error));
            (None, answering (Normal (server_error (Normal london))))]
           (None, answering (Normal (success london))) london empty_world
           51.5%float (-0.1)%float 408.2%float eq_refl eq_refl eq_refl eq_refl).
  repeat constructor.
Defined.

End PollFacts.

(** * Properties of [setupPositionTracking] *)

Module SetupFacts.
Import Js Poller Setup PollerFacts.

Section Facts.

Variable NumberToString : float -> string.
Variable refuses : list GaugeConfiguration -> GaugeConfiguration -> option Error.

Abbreviation setupPositionTracking :=
  (setupPositionTracking NumberToString refuses).
Abbreviation Number := (Number NumberToString).

(** The three configurations of the source, and the call to [schedule]. *)
Abbreviation latitude_gauge config registry :=
  {| name := metricsPrefix config ++ "position_latitude";
     help := "ISS current latitude"; registers := [registry] |}.
Abbreviation longitude_gauge config registry :=
  {| name := metricsPrefix config ++ "position_longitude";
     help := "ISS current longitude"; registers := [registry] |}.
Abbreviation altitude_gauge config registry :=
  {| name := metricsPrefix config ++ "altitude";
     help := "ISS current altitude"; registers := [registry] |}.
Abbreviation scheduled config latitudeMetric longitudeMetric altitudeMetric :=
  {| task := positionLoader NumberToString (positionApiUrl config)
               latitudeMetric longitudeMetric altitudeMetric;
     intervalMs := positionUpdateFrequency config;
     on_error := onError |}.

(** Strings with a common prefix differ where their rests differ. *)
Lemma append_inv_prefix (prefix a b : string) :
  prefix ++ a = prefix ++ b -> a = b.
Proof.
  induction prefix as [|c prefix IH]; cbn [String.append]; intros H; [exact H|].
  apply IH. injection H as H. exact H.
Qed.

(** What a setup that returns has done. *)
Lemma setup_returns (config : Config) (registry : Registry) (p p' : Process) :
  setupPositionTracking config registry p = (Normal tt, p') ->
  p' = {| metrics := metrics p ++ [latitude_gauge config registry;
                                   longitude_gauge config registry;
                                   altitude_gauge config registry];
          schedules := schedules p
                       ++ [scheduled config (length (metrics p))
                             (S (length (metrics p))) (S (S (length (metrics p))))] |}.
Proof.
  unfold Setup.setupPositionTracking, setup_bind, new_Gauge, schedule.
  destruct (refuses (metrics p) _) as [e|]; [discriminate|]. cbn [metrics schedules].
  destruct (refuses (metrics p ++ _) _) as [e|]; [discriminate|]. cbn [metrics schedules].
  destruct (refuses ((metrics p ++ _) ++ _) _) as [e|]; [discriminate|].
  cbn [metrics schedules].
  intros H. injection H as <-.
  rewrite !length_app. cbn [length]. rewrite !Nat.add_1_r, <- !app_assoc.
  reflexivity.
Qed.

(** X10. When [setupPositionTracking] returns, it has constructed exactly
    three gauges, all in the given registry, named by the prefix followed
    by [position_latitude], [position_longitude] and [altitude]; for every
    prefix these names differ from one another. It has scheduled exactly
    one task, at the configured interval. *)
Theorem setup_constructs_three_gauges (config : Config) (registry : Registry)
    (p p' : Process) :
  setupPositionTracking config registry p = (Normal tt, p') ->
  exists latitude longitude altitude s,
    metrics p' = (metrics p ++ [latitude; longitude; altitude])%list /\
    Forall (fun m => registers m = [registry]) [latitude; longitude; altitude] /\
    [name latitude; name longitude; name altitude]
    = [metricsPrefix config ++ "position_latitude";
       metricsPrefix config ++ "position_longitude";
       metricsPrefix config ++ "altitude"] /\
    NoDup [name latitude; name longitude; name altitude] /\
    schedules p' = (schedules p ++ [s])%list /\
    intervalMs s = positionUpdateFrequency config.
Proof.
  intros Hreturn. rewrite (setup_returns _ _ _ _ Hreturn). cbn [metrics schedules].
  eexists _, _, _, _. split; [reflexivity|].
  split; [repeat constructor|]. split; [reflexivity|].
  split; [|split; reflexivity]. cbn [name].
  repeat constructor.
  - intros Hin. apply elem_of_cons in Hin as [Hin|Hin].
    + apply append_inv_prefix in Hin. discriminate Hin.
    + apply list_elem_of_singleton in Hin.
      apply append_inv_prefix in Hin. discriminate Hin.
  - intros Hin. apply list_elem_of_singleton in Hin.
    apply append_inv_prefix in Hin. discriminate Hin.
  - intros Hin. inversion Hin.
Qed.

(** X11. When the constructor of one of the three gauges throws (the
    constructors before it, if any, having returned), [setupPositionTracking]
    throws the same error and schedules nothing; the gauges constructed
    before the failure stay registered. *)
Theorem throwing_constructor_stops_setup (config : Config) (registry : Registry)
    (p : Process) (k : nat) (refused : GaugeConfiguration) (e : Error) :
  gauge_configurations config registry !! k = Some refused ->
  (forall i accepted,
     (i < k)%nat ->
     gauge_configurations config registry !! i = Some accepted ->
     refuses (metrics p ++ take i (gauge_configurations config registry))%list accepted
     = None) ->
  refuses (metrics p ++ take k (gauge_configurations config registry))%list refused
  = Some e ->
  setupPositionTracking config registry p
  = (Throw e,
     {| metrics := (metrics p ++ take k (gauge_configurations config registry))%list;
        schedules := schedules p |}).
Proof.
  intros Hk Hbefore Hrefused.
  unfold Setup.setupPositionTracking, setup_bind, new_Gauge, schedule.
  destruct k as [|[|[|k]]]; cbn in Hk; [| | |discriminate Hk];
    injection Hk as <-.
  - cbn [take] in Hrefused |- *. rewrite app_nil_r in Hrefused |- *.
    rewrite Hrefused. destruct p; reflexivity.
  - pose proof (Hbefore 0%nat _ ltac:(lia) eq_refl) as H0.
    cbn [take gauge_configurations] in H0, Hrefused |- *.
    rewrite app_nil_r in H0. rewrite H0. cbn [metrics schedules].
    rewrite Hrefused. reflexivity.
  - pose proof (Hbefore 0%nat _ ltac:(lia) eq_refl) as H0.
    pose proof (Hbefore 1%nat _ ltac:(lia) eq_refl) as H1.
    cbn [take gauge_configurations] in H0, H1, Hrefused |- *.
    rewrite app_nil_r in H0. rewrite H0. cbn [metrics schedules].
    rewrite H1. cbn [metrics schedules].
    rewrite <- app_assoc. cbn [app]. rewrite Hrefused. reflexivity.
Qed.

(** X12. The wiring of the gauges: after a setup that returned, a poll of
    the scheduled task that fetches [config.positionApiUrl], passes every
    check and has its three fields coerced by [Number] leaves the gauge
    named [position_latitude] holding the latitude, the one named
    [position_longitude] the longitude and the one named [altitude] the
    altitude. *)
Theorem scheduled_task_publishes (config : Config) (registry : Registry) (p p' : Process)
    (signal : option AbortSignal) (env : Env) (w : World) (response : Response)
    (data : JsValue) (latitude longitude altitude : float) :
  setupPositionTracking config registry p = (Normal tt, p') ->
  fetch env (positionApiUrl config) signal = Normal response ->
  json response = Normal data ->
  ok response = true ->
  payload_valid data = true ->
  Number (get_property data "latitude") = Normal latitude ->
  Number (get_property data "longitude") = Normal longitude ->
  Number (get_property data "altitude") = Normal altitude ->
  exists s latitudeMetric longitudeMetric altitudeMetric,
    schedules p' = (schedules p ++ [s])%list /\
    name <$> metrics p' !! latitudeMetric
    = Some (metricsPrefix config ++ "position_latitude") /\
    name <$> metrics p' !! longitudeMetric
    = Some (metricsPrefix config ++ "position_longitude") /\
    name <$> metrics p' !! altitudeMetric
    = Some (metricsPrefix config ++ "altitude") /\
    let w' := snd (task s signal env w) in
    fst (task s signal env w) = Normal tt /\
    gauges w' !! latitudeMetric = Some latitude /\
    gauges w' !! longitudeMetric = Some longitude /\
    gauges w' !! altitudeMetric = Some altitude.
Proof.
  intros Hreturn Hf Hj Hok Hv Hla Hlo Hal. rewrite (setup_returns _ _ _ _ Hreturn).
  cbn [metrics schedules].
  eexists _, (length (metrics p)), (S (length (metrics p))), (S (S (length (metrics p)))).
  split; [reflexivity|].
  split; [rewrite lookup_app_r by lia; rewrite Nat.sub_diag; reflexivity|].
  split; [rewrite lookup_app_r by lia;
          replace (S (length (metrics p)) - length (metrics p))%nat with 1%nat by lia;
          reflexivity|].
  split; [rewrite lookup_app_r by lia;
          replace (S (S (length (metrics p))) - length (metrics p))%nat with 2%nat by lia;
          reflexivity|].
  cbv zeta. cbn [task]. unfold positionLoader.
  rewrite (loadPosition_publishes _ _ _ _ _ _ _ _ _ _ _ _ _ Hf Hj Hok Hv Hla Hlo Hal).
  unfold published. cbn [fst snd gauges].
  split; [reflexivity|]. repeat split.
  - rewrite lookup_insert_ne, lookup_insert_ne, lookup_insert_eq by lia. reflexivity.
  - rewrite lookup_insert_ne, lookup_insert_eq by lia. reflexivity.
  - apply lookup_insert_eq.
Qed.

End Facts.

(** *** The properties on a sample setup *)

Import Samples MoreSamples.

Abbreviation sample_setup :=
  (setupPositionTracking no_digits refuses_duplicates iss_config 0%nat).

Lemma setup_constructs_three_gauges_witness :
  exists latitude longitude altitude s,
    metrics (snd (sample_setup fresh_process)) = [latitude; longitude; altitude] /\
    Forall (fun m => registers m = [0%nat]) [latitude; longitude; altitude] /\
    [name latitude; name longitude; name altitude]
    = ["iss_position_latitude"; "iss_position_longitude"; "iss_altitude"] /\
    NoDup [name latitude; name longitude; name altitude] /\
    schedules (snd (sample_setup fresh_process)) = [s] /\
    intervalMs s = 5000%Z.
Proof.
  exact (setup_constructs_three_gauges no_digits refuses_duplicates iss_config 0%nat
           fresh_process (snd (sample_setup fresh_process)) eq_refl).
Defined.

Lemma throwing_constructor_stops_setup_witness :
  sample_setup crowded_process
  = (Throw (mkError "Error"
              "A metric with the name iss_position_longitude has already been registered."),
     {| metrics := (metrics crowded_process
                    ++ take 1 (gauge_configurations iss_config 0%nat))%list;
        schedules := [] |}).
Proof.
  apply (throwing_constructor_stops_setup no_digits refuses_duplicates iss_config 0%nat
           crowded_process 1%nat
           {| name := "iss_position_longitude"; help := "ISS current longitude";
              registers := [0%nat] |}).
  - reflexivity.
  - intros i accepted Hi Hat.
    destruct i as [|i]; [|lia]. injection Hat as <-. reflexivity.
  - reflexivity.
Defined.

Lemma scheduled_task_publishes_witness :
  exists s latitudeMetric longitudeMetric altitudeMetric,
    schedules (snd (sample_setup fresh_process)) = [s] /\
    name <$> metrics (snd (sample_setup fresh_process)) !! latitudeMetric
    = Some "iss_position_latitude" /\
    name <$> metrics (snd (sample_setup fresh_process)) !! longitudeMetric
    = Some "iss_position_longitude" /\
    name <$> metrics (snd (sample_setup fresh_process)) !! altitudeMetric
    = Some "iss_altitude" /\
    let w' := snd (task s None (answering (Normal (success london))) empty_world) in
    fst (task s None (answering (Normal (success london))) empty_world) = Normal tt /\
    gauges w' !! latitudeMetric = Some 51.5%float /\
    gauges w' !! longitudeMetric = Some (-0.1)%float /\
    gauges w' !! altitudeMetric = Some 408.2%float.
Proof.
  exact (scheduled_task_publishes no_digits refuses_duplicates iss_config 0%nat
           fresh_process (snd (sample_setup fresh_process)) None
           (answering (Normal (success london))) empty_world (success london) london
           51.5%float (-0.1)%float 408.2%float
           eq_refl eq_refl eq_refl eq_refl eq_refl eq_refl eq_refl eq_refl).
Defined.

End SetupFacts.
